(** * Voice-chat backend: turn taking, confidence routing, dialog state
      machine and barge-in

    A shallow embedding of the Python sources [turn_taking.py],
    [confidence_router.py], [conversation_engine.py] and the frame loop of
    [app.py], followed by the properties established about them.

    Conventions of the embedding
    - Python [bytes]/[bytearray] values are [list byte]; a method that
      mutates [self] becomes a function returning the new engine.
    - Python [int] is [Z]; Python [float] values that the code only compares
      with constants (VAD probabilities, ASR confidences) are rationals [Q].
    - The voice-activity estimate [vad_probability] depends on the external
      [webrtcvad] package, so the engine is parameterised by it. *)

From Stdlib Require Import ZArith QArith Qround Lia Lqa.
From Stdlib Require Import DecimalString DecimalPos DecimalZ.
From stdpp Require Import base option list strings gmap.

Local Open Scope Z_scope.

(** ** Python values *)

(** [bytes] and [bytearray]: finite byte sequences. *)
Abbreviation bytes := (list Byte.byte).

(** [len(b)] as a Python int. *)
Definition len {A} (l : list A) : Z := Z.of_nat (length l).

(** Comparisons of floats against constants, on rationals. *)
Definition Qgeb (x y : Q) : bool := Qle_bool y x.
Definition Qltb (x y : Q) : bool := negb (Qle_bool y x).
Definition Qgtb (x y : Q) : bool := negb (Qle_bool x y).

(** Python's [round] on a quotient: nearest integer, ties to the even one. *)
Definition py_round (q : Q) : Z :=
  let f := Qfloor q in
  let r := (q - inject_Z f)%Q in
  match (r ?= 1 # 2)%Q with
  | Lt => f
  | Gt => f + 1
  | Eq => if Z.even f then f else f + 1
  end.

(** ** turn_taking.py *)

Module TurnTaking.

Definition SAMPLE_RATE : Z := 16000.
Definition FRAME_MS : Z := 20.
(** [int(SAMPLE_RATE * FRAME_MS / 1000) * 2] *)
Definition FRAME_BYTES : Z := (SAMPLE_RATE * FRAME_MS / 1000) * 2.

Definition SILENCE_GRACE_MS : Z := 1000.
Definition CONFIRMATION_WINDOW_MS : Z := 400.
Definition MIN_SPEECH_MS : Z := 300.
Definition LONG_SILENCE_NUDGE_MS : Z := 1500.
Definition INCOMPLETE_WAIT_MS : Z := 300.
Definition COMFORT_WAIT_MS : Z := 1500.
Definition CHUNK_MS : Z := 200.

Inductive TurnEventType := TURN_END | CONTINUATION_CUE | NUDGE | COMFORT.

Record TurnEvent := mkTurnEvent {
  type : TurnEventType;
  ev_buffer : option bytes
}.

Inductive TurnState := IDLE | LISTENING | CANDIDATE_END | WAITING_INCOMPLETE.

#[global] Instance TurnState_eq_dec : EqDecision TurnState.
Proof. solve_decision. Defined.

#[global] Instance TurnEventType_eq_dec : EqDecision TurnEventType.
Proof. solve_decision. Defined.

(** The attributes of a [TurnTakingEngine] object.  [_barge_in_frames] is not
    set by the class: the frame loop of [app.py] attaches it to the engine
    object on first use, hence the option. *)
Record TurnTakingEngine := mkEngine {
  chunk_ms : Z;
  state : TurnState;
  buffer : bytes;
  silence_chunks : Z;
  speech_chunks : Z;
  idle_silence_chunks : Z;
  consecutive_speech_frames : Z;
  _silence_grace_chunks : Z;
  _confirmation_chunks : Z;
  _min_speech_chunks : Z;
  _nudge_chunks : Z;
  _incomplete_wait_chunks : Z;
  _comfort_wait_chunks : Z;
  _barge_in_frames : option Z
}.

(** Field updates (assignments to [self.x]). *)
Definition set_state (s : TurnState) (e : TurnTakingEngine) :=
  mkEngine (chunk_ms e) s (buffer e) (silence_chunks e) (speech_chunks e)
    (idle_silence_chunks e) (consecutive_speech_frames e)
    (_silence_grace_chunks e) (_confirmation_chunks e) (_min_speech_chunks e)
    (_nudge_chunks e) (_incomplete_wait_chunks e) (_comfort_wait_chunks e)
    (_barge_in_frames e).
Definition set_buffer (b : bytes) (e : TurnTakingEngine) :=
  mkEngine (chunk_ms e) (state e) b (silence_chunks e) (speech_chunks e)
    (idle_silence_chunks e) (consecutive_speech_frames e)
    (_silence_grace_chunks e) (_confirmation_chunks e) (_min_speech_chunks e)
    (_nudge_chunks e) (_incomplete_wait_chunks e) (_comfort_wait_chunks e)
    (_barge_in_frames e).
Definition set_silence_chunks (n : Z) (e : TurnTakingEngine) :=
  mkEngine (chunk_ms e) (state e) (buffer e) n (speech_chunks e)
    (idle_silence_chunks e) (consecutive_speech_frames e)
    (_silence_grace_chunks e) (_confirmation_chunks e) (_min_speech_chunks e)
    (_nudge_chunks e) (_incomplete_wait_chunks e) (_comfort_wait_chunks e)
    (_barge_in_frames e).
Definition set_speech_chunks (n : Z) (e : TurnTakingEngine) :=
  mkEngine (chunk_ms e) (state e) (buffer e) (silence_chunks e) n
    (idle_silence_chunks e) (consecutive_speech_frames e)
    (_silence_grace_chunks e) (_confirmation_chunks e) (_min_speech_chunks e)
    (_nudge_chunks e) (_incomplete_wait_chunks e) (_comfort_wait_chunks e)
    (_barge_in_frames e).
Definition set_idle_silence_chunks (n : Z) (e : TurnTakingEngine) :=
  mkEngine (chunk_ms e) (state e) (buffer e) (silence_chunks e)
    (speech_chunks e) n (consecutive_speech_frames e)
    (_silence_grace_chunks e) (_confirmation_chunks e) (_min_speech_chunks e)
    (_nudge_chunks e) (_incomplete_wait_chunks e) (_comfort_wait_chunks e)
    (_barge_in_frames e).
Definition set_consecutive_speech_frames (n : Z) (e : TurnTakingEngine) :=
  mkEngine (chunk_ms e) (state e) (buffer e) (silence_chunks e)
    (speech_chunks e) (idle_silence_chunks e) n
    (_silence_grace_chunks e) (_confirmation_chunks e) (_min_speech_chunks e)
    (_nudge_chunks e) (_incomplete_wait_chunks e) (_comfort_wait_chunks e)
    (_barge_in_frames e).
Definition set_barge_in_frames (n : option Z) (e : TurnTakingEngine) :=
  mkEngine (chunk_ms e) (state e) (buffer e) (silence_chunks e)
    (speech_chunks e) (idle_silence_chunks e) (consecutive_speech_frames e)
    (_silence_grace_chunks e) (_confirmation_chunks e) (_min_speech_chunks e)
    (_nudge_chunks e) (_incomplete_wait_chunks e) (_comfort_wait_chunks e) n.

(** [max(1, int(round(ms / chunk_ms)))], the durations being whole numbers of
    milliseconds and the quotient taken exactly. *)
Definition chunks_of_ms (ms chunk : Z) : Z :=
  Z.max 1 (py_round (inject_Z ms / inject_Z chunk)%Q).

(** [config.get(key, default)] on the per-session threshold dictionary. *)
Definition config_get (config : gmap string Z) (key : string) (dflt : Z) : Z :=
  default dflt (config !! key).

(** [TurnTakingEngine.__init__].  Dividing by [chunk_ms = 0] raises
    [ZeroDivisionError]: no engine is constructed. *)
Definition init (chunk : Z) (config : gmap string Z) : option TurnTakingEngine :=
  if decide (chunk = 0) then None else
  let silence_grace := config_get config "candidate_end_ms" SILENCE_GRACE_MS in
  let confirmation := config_get config "final_end_ms" CONFIRMATION_WINDOW_MS in
  let min_speech := config_get config "min_speech_ms" MIN_SPEECH_MS in
  let nudge := config_get config "nudge_ms" LONG_SILENCE_NUDGE_MS in
  let incomplete := config_get config "incomplete_wait_ms" INCOMPLETE_WAIT_MS in
  let comfort := config_get config "comfort_wait_ms" COMFORT_WAIT_MS in
  Some {| chunk_ms := chunk;
          state := IDLE;
          buffer := [];
          silence_chunks := 0;
          speech_chunks := 0;
          idle_silence_chunks := 0;
          consecutive_speech_frames := 0;
          _silence_grace_chunks := chunks_of_ms silence_grace chunk;
          _confirmation_chunks := chunks_of_ms confirmation chunk;
          _min_speech_chunks := chunks_of_ms min_speech chunk;
          _nudge_chunks := chunks_of_ms nudge chunk;
          _incomplete_wait_chunks := chunks_of_ms incomplete chunk;
          _comfort_wait_chunks := chunks_of_ms comfort chunk;
          _barge_in_frames := None |}.

(** [_reset] *)
Definition _reset (e : TurnTakingEngine) : TurnTakingEngine :=
  set_consecutive_speech_frames 0
    (set_idle_silence_chunks 0
      (set_silence_chunks 0
        (set_speech_chunks 0
          (set_buffer [] (set_state IDLE e))))).

(** [turn_end_incomplete] *)
Definition turn_end_incomplete (e : TurnTakingEngine) : TurnTakingEngine :=
  set_silence_chunks 0 (set_state WAITING_INCOMPLETE e).

(** [finalize_turn] *)
Definition finalize_turn (e : TurnTakingEngine) : TurnTakingEngine := _reset e.

Section WithVAD.

(** [vad_probability(pcm_bytes)]: the speech probability of a chunk. *)
Variable vad_probability : bytes -> Q.

(** [has_voice]: probability above 0.6. *)
Definition has_voice (pcm_bytes : bytes) : bool :=
  Qgtb (vad_probability pcm_bytes) 0.6.

(** [has_voice_uncertain]: [Some true] (speech), [Some false] (silence),
    [None] (uncertain). *)
Definition has_voice_uncertain (pcm_bytes : bytes) : option bool :=
  let prob := vad_probability pcm_bytes in
  if Qgeb prob 0.1 then Some true
  else if Qltb prob 0.05 then Some false
  else None.

(** [process_chunk]: the new engine and the event returned, if any. *)
Definition process_chunk (e : TurnTakingEngine) (pcm_bytes : bytes)
  : TurnTakingEngine * option TurnEvent :=
  match pcm_bytes with
  | [] => (e, None)
  | _ =>
  if len pcm_bytes <? FRAME_BYTES then
    if decide (state e = LISTENING \/ state e = CANDIDATE_END)
    then (set_buffer (buffer e ++ pcm_bytes) e, None)
    else (e, None)
  else
  let vad_result := has_voice_uncertain pcm_bytes in
  let vad_prob := vad_probability pcm_bytes in
  match vad_result with
  | None =>
    if decide (state e = LISTENING \/ state e = CANDIDATE_END)
    then (set_buffer (buffer e ++ pcm_bytes) e, None)
    else if bool_decide (state e = IDLE) && Qgeb vad_prob 0.1
    then (set_idle_silence_chunks 0
           (set_silence_chunks 0
             (set_speech_chunks 1
               (set_buffer pcm_bytes (set_state LISTENING e)))), None)
    else (e, None)
  | Some voice =>
    match state e with
    | IDLE =>
      if voice then
        (set_idle_silence_chunks 0
          (set_silence_chunks 0
            (set_speech_chunks 1
              (set_buffer pcm_bytes (set_state LISTENING e)))), None)
      else
        let e := set_idle_silence_chunks (idle_silence_chunks e + 1) e in
        if idle_silence_chunks e >=? _nudge_chunks e
        then (set_idle_silence_chunks 0 e, Some (mkTurnEvent NUDGE None))
        else (e, None)
    | LISTENING =>
      if voice then
        (set_silence_chunks 0
          (set_speech_chunks (speech_chunks e + 1)
            (set_buffer (buffer e ++ pcm_bytes) e)), None)
      else
        let e := set_buffer (buffer e ++ pcm_bytes) e in
        let e := set_silence_chunks (silence_chunks e + 1) e in
        if silence_chunks e >=? _silence_grace_chunks e then
          if speech_chunks e >=? _min_speech_chunks e
          then (set_silence_chunks 0 (set_state CANDIDATE_END e), None)
          else (set_silence_chunks 0
                 (set_speech_chunks 0
                   (set_buffer [] (set_state IDLE e))), None)
        else (e, None)
    | CANDIDATE_END =>
      if voice then
        (set_silence_chunks 0
          (set_speech_chunks (speech_chunks e + 1)
            (set_buffer (buffer e ++ pcm_bytes)
              (set_state LISTENING e))), None)
      else
        let e := set_buffer (buffer e ++ pcm_bytes) e in
        let e := set_silence_chunks (silence_chunks e + 1) e in
        if silence_chunks e >=? _confirmation_chunks e
        then (e, Some (mkTurnEvent TURN_END (Some (buffer e))))
        else (e, None)
    | WAITING_INCOMPLETE =>
      if voice then
        (set_silence_chunks 0
          (set_speech_chunks (speech_chunks e + 1)
            (set_buffer (buffer e ++ pcm_bytes)
              (set_state LISTENING e))), None)
      else
        let e := set_silence_chunks (silence_chunks e + 1) e in
        if silence_chunks e >=? _comfort_wait_chunks e
        then (_reset e, Some (mkTurnEvent COMFORT None))
        else if silence_chunks e >=? _incomplete_wait_chunks e
        then (_reset e, Some (mkTurnEvent CONTINUATION_CUE None))
        else (e, None)
    end
  end
  end.

(** [_get_vad_probability] *)
Definition _get_vad_probability (e : TurnTakingEngine) (pcm_bytes : bytes) : Q :=
  vad_probability pcm_bytes.

End WithVAD.

End TurnTaking.

(** ** Driving the engine *)

Module Driver.
Import TurnTaking.

(** The energy estimate that [vad_probability] returns when [webrtcvad] is not
    installed ([_VAD_AVAILABLE = False]): mean absolute value of the
    little-endian 16-bit samples over 32768, mapped by the thresholds 0.03,
    0.015 and 0.005.  The arithmetic is exact here; it is used to run the
    engine on concrete frames. *)
Definition unpack_h (lo hi : Byte.byte) : Z :=
  let v := Z.of_N (Byte.to_N lo) + 256 * Z.of_N (Byte.to_N hi) in
  if v <? 32768 then v else v - 65536.

Fixpoint samples (pcm_bytes : bytes) : list Z :=
  match pcm_bytes with
  | lo :: hi :: rest => unpack_h lo hi :: samples rest
  | _ => []
  end.

Definition energy_probability (pcm_bytes : bytes) : Q :=
  if len pcm_bytes <? 2 then 0 else
  let total := foldr (fun s acc => Z.abs s + acc) 0 (samples pcm_bytes) in
  let count := len (samples pcm_bytes) in
  if count =? 0 then 0 else
  let avg := (inject_Z total / inject_Z count / 32768)%Q in
  if Qgtb avg 0.03 then 1
  else if Qgtb avg 0.015 then 0.5
  else if Qgtb avg 0.005 then 0.3
  else 0.

(** The calls a client of the engine can make. *)
Inductive Call :=
| Chunk (pcm_bytes : bytes)
| TurnEndIncomplete
| FinalizeTurn.

Section WithVAD.

Variable vad_probability : bytes -> Q.

Definition call (e : TurnTakingEngine) (c : Call)
  : TurnTakingEngine * option TurnEvent :=
  match c with
  | Chunk pcm_bytes => process_chunk vad_probability e pcm_bytes
  | TurnEndIncomplete => (turn_end_incomplete e, None)
  | FinalizeTurn => (finalize_turn e, None)
  end.

(** The engine after a sequence of calls, and what each call returned. *)
Fixpoint run (e : TurnTakingEngine) (cs : list Call)
  : TurnTakingEngine * list (option TurnEvent) :=
  match cs with
  | [] => (e, [])
  | c :: cs =>
    let '(e1, ev) := call e c in
    let '(e2, evs) := run e1 cs in
    (e2, ev :: evs)
  end.

(** The value of [voice] with which [process_chunk] dispatches on the state:
    [None] for a chunk that does not get that far (empty, shorter than a
    frame, or uncertain). *)
Definition classify (pcm_bytes : bytes) : option bool :=
  if len pcm_bytes <? FRAME_BYTES then None
  else has_voice_uncertain vad_probability pcm_bytes.

(** Number of chunks classified as silence since the last chunk classified as
    speech (or since the start), [acc] being the count so far. *)
Fixpoint trailing_silence (acc : Z) (cs : list Call) : Z :=
  match cs with
  | [] => acc
  | Chunk pcm_bytes :: cs =>
    match classify pcm_bytes with
    | Some true => trailing_silence 0 cs
    | Some false => trailing_silence (acc + 1) cs
    | None => trailing_silence acc cs
    end
  | _ :: cs => trailing_silence acc cs
  end.

(** Number of chunks classified as speech. *)
Fixpoint speech_count (cs : list Call) : Z :=
  match cs with
  | [] => 0
  | Chunk pcm_bytes :: cs =>
    (if classify pcm_bytes is Some true then 1 else 0) + speech_count cs
  | _ :: cs => speech_count cs
  end.

End WithVAD.

(** Concrete 640-byte frames for the energy estimate: loud (probability 1.0),
    faint (0.5), weak (0.3) and silent (0.0). *)
Definition loud_frame : bytes := repeat Byte.x40 640.
Definition faint_frame : bytes :=
  concat (repeat [Byte.x00; Byte.x03] 320).
Definition weak_frame : bytes :=
  concat (repeat [Byte.x00; Byte.x01] 320).
Definition silent_frame : bytes := repeat Byte.x00 640.

(** ** Invariants of the counters *)

(** The thresholds are fixed at construction. *)
Definition same_thresholds (e0 e : TurnTakingEngine) : Prop :=
  _silence_grace_chunks e = _silence_grace_chunks e0 /\
  _confirmation_chunks e = _confirmation_chunks e0 /\
  _min_speech_chunks e = _min_speech_chunks e0 /\
  _nudge_chunks e = _nudge_chunks e0 /\
  _incomplete_wait_chunks e = _incomplete_wait_chunks e0 /\
  _comfort_wait_chunks e = _comfort_wait_chunks e0.

(** What the counters record, [t] being the number of silent chunks since
    the last speech chunk and [sp] the number of speech chunks so far. *)
Definition counters_ok (e0 : TurnTakingEngine) (t sp : Z)
  (e : TurnTakingEngine) : Prop :=
  same_thresholds e0 e /\
  (state e = LISTENING -> silence_chunks e <= t) /\
  (state e = CANDIDATE_END ->
     _silence_grace_chunks e0 + silence_chunks e <= t /\
     _min_speech_chunks e0 <= speech_chunks e) /\
  speech_chunks e <= sp /\ 0 <= sp.

(** In WAITING_INCOMPLETE the silence counter stays below the continuation
    threshold: reaching it resets the engine. *)
Definition waiting_ok (e0 e : TurnTakingEngine) : Prop :=
  same_thresholds e0 e /\
  (state e = WAITING_INCOMPLETE ->
   silence_chunks e < _incomplete_wait_chunks e0).

(** How much audio the buffer holds, in frames, against the counters. *)
Definition buffer_ok (e0 e : TurnTakingEngine) : Prop :=
  same_thresholds e0 e /\
  0 <= silence_chunks e /\ 0 <= speech_chunks e /\
  FRAME_BYTES * speech_chunks e <= len (buffer e) /\
  (state e = IDLE ->
     buffer e = [] /\ speech_chunks e = 0 /\ silence_chunks e = 0) /\
  (state e = LISTENING ->
     FRAME_BYTES * (speech_chunks e + silence_chunks e) <= len (buffer e)) /\
  (state e = CANDIDATE_END ->
     FRAME_BYTES *
       (speech_chunks e + _silence_grace_chunks e0 + silence_chunks e)
     <= len (buffer e)).

(** ** Concrete engines and runs *)

(** [TurnTakingEngine()] with the default arguments: 200 ms chunks, hence
    thresholds of 5, 2, 2, 8, 2 and 8 chunks. *)
Definition default_engine : TurnTakingEngine :=
  {| chunk_ms := 200;
     state := IDLE;
     buffer := [];
     silence_chunks := 0;
     speech_chunks := 0;
     idle_silence_chunks := 0;
     consecutive_speech_frames := 0;
     _silence_grace_chunks := 5;
     _confirmation_chunks := 2;
     _min_speech_chunks := 2;
     _nudge_chunks := 8;
     _incomplete_wait_chunks := 2;
     _comfort_wait_chunks := 8;
     _barge_in_frames := None |}.

(** Two loud frames, then six silent ones: one silent frame short of the
    first TURN_END. *)
Definition utterance : list Call :=
  map Chunk (repeat loud_frame 2 ++ repeat silent_frame 6).

Definition before_turn_end : TurnTakingEngine :=
  fst (run energy_probability default_engine utterance).

(** A chunk shorter than a frame. *)
Definition short_chunk : bytes := repeat Byte.x40 10.

End Driver.

(** ** confidence_router.py *)

Module ConfidenceRouter.

Inductive ConfidenceAction := ACCEPT | CLARIFY | REJECT.

#[global] Instance ConfidenceAction_eq_dec : EqDecision ConfidenceAction.
Proof. solve_decision. Defined.

(** An ASR result dictionary: a key may be absent. *)
Record AsrResult := mkAsrResult {
  asr_text : option string;
  asr_confidence : option Q;
  asr_language : option string
}.

Record ConfidenceRouter := mkRouter {
  high_threshold : Q;
  low_threshold : Q
}.

(** [ConfidenceRouter()] with the default arguments. *)
Definition default_router : ConfidenceRouter :=
  {| high_threshold := 0.8; low_threshold := 0.2 |}.

(** [route] *)
Definition route (self : ConfidenceRouter) (asr_result : AsrResult)
  : ConfidenceAction * string :=
  let confidence := default 0%Q (asr_confidence asr_result) in
  let text := default ""%string (asr_text asr_result) in
  if Qgeb confidence (high_threshold self) then (ACCEPT, text)
  else if Qgeb confidence (low_threshold self) then (CLARIFY, text)
  else (REJECT, ""%string).

(** [get_clarification_message] *)
Definition get_clarification_message (self : ConfidenceRouter) (confidence : Q)
  : string :=
  if Qgeb confidence 0.7
  then "I think I heard you, but could you confirm that?"%string
  else if Qgeb confidence 0.4
  then "I didn't catch that clearly. Could you please repeat?"%string
  else "I didn't catch that clearly. Could you please repeat?"%string.

End ConfidenceRouter.

(** ** Python strings and the Redis hash store *)

Module Py.

Local Open Scope string_scope.

(** [str(n)] for an int. *)
Definition str (n : Z) : string := NilZero.string_of_int (Z.to_int n).

(** [int(s)]: [None] stands for [ValueError].  Decimal digits with an optional
    minus sign are read; the other spellings Python's [int] tolerates (a plus
    sign, surrounding blanks, digit-group underscores) are never written by
    this program and count as errors here. *)
Definition int (s : string) : option Z :=
  Z.of_int <$> NilZero.int_of_string s.

(** [c.isspace()] on the code points below 256. *)
Definition isspace (c : Ascii.ascii) : bool :=
  let n := Ascii.nat_of_ascii c in
  ((9 <=? n) && (n <=? 13) || (28 <=? n) && (n <=? 32)
   || (n =? 133) || (n =? 160))%nat.

Fixpoint lstrip (s : string) : string :=
  match s with
  | String c s' => if isspace c then lstrip s' else s
  | EmptyString => EmptyString
  end.

(** [s.strip()] *)
Definition strip (s : string) : string :=
  String.rev (lstrip (String.rev (lstrip s))).

(** [s.upper()] on ASCII letters. *)
Definition upper_char (c : Ascii.ascii) : Ascii.ascii :=
  let n := Ascii.nat_of_ascii c in
  if ((97 <=? n) && (n <=? 122))%nat then Ascii.ascii_of_nat (n - 32) else c.

Fixpoint upper (s : string) : string :=
  match s with
  | String c s' => String (upper_char c) (upper s')
  | EmptyString => EmptyString
  end.

(** [sub in s] *)
Fixpoint contains (sub s : string) : bool :=
  String.prefix sub s ||
  match s with
  | String _ s' => contains sub s'
  | EmptyString => false
  end.

(** [len(s)] *)
Definition slen (s : string) : Z := Z.of_nat (String.length s).

(** Truth value of an optional string: [None] and [""] are falsy. *)
Definition truthy (s : option string) : bool :=
  match s with
  | Some (String _ _) => true
  | _ => false
  end.

(** [s or d] *)
Definition or_else (s : option string) (d : string) : string :=
  match s with
  | Some (String c s') => String c s'
  | _ => d
  end.

End Py.

Module Redis.

(** Hashes by key; every field and value is a string
    ([decode_responses=True]). *)
Abbreviation t := (gmap string (gmap string string)).

Definition hgetall (r : t) (name : string) : gmap string string :=
  default ∅ (r !! name).

Definition hget (r : t) (name key : string) : option string :=
  hgetall r name !! key.

Definition hset (r : t) (name key value : string) : t :=
  <[name := <[key := value]> (hgetall r name)]> r.

(** [hset(name, mapping=...)]: the fields are written in order. *)
Definition hset_mapping (r : t) (name : string)
  (mapping : list (string * string)) : t :=
  foldl (fun r kv => hset r name (fst kv) (snd kv)) r mapping.

End Redis.

(** Computations over the store that may raise. *)
Module Store.

Definition M (A : Type) : Type := Redis.t -> option (A * Redis.t).

Definition ret {A} (a : A) : M A := fun r => Some (a, r).

Definition bind {A B} (m : M A) (k : A -> M B) : M B :=
  fun r => match m r with
           | Some (a, r') => k a r'
           | None => None
           end.

(** An exception leaving the method. *)
Definition raise {A} : M A := fun _ => None.

Definition lift {A} (o : option A) : M A :=
  fun r => match o with Some a => Some (a, r) | None => None end.

Definition hget (name key : string) : M (option string) :=
  fun r => Some (Redis.hget r name key, r).

Definition hset (name key value : string) : M unit :=
  fun r => Some (tt, Redis.hset r name key value).

Definition hset_mapping (name : string) (mapping : list (string * string))
  : M unit :=
  fun r => Some (tt, Redis.hset_mapping r name mapping).

End Store.

Notation "'let!' x ':=' m 'in' k" := (Store.bind m (fun x => k))
  (at level 10, x name, m at level 100, k at level 200).
Notation "m ';;' k" := (Store.bind m (fun _ => k))
  (at level 100, k at level 200, right associativity).

(** ** conversation_engine.py *)

Module ConversationEngine.

Local Open Scope string_scope.
Local Open Scope Z_scope.

Inductive ConversationState :=
  INIT | GREETING | LISTENING | PROCESSING | RESPONDING | CLARIFYING
| ERROR | END.

#[global] Instance ConversationState_eq_dec : EqDecision ConversationState.
Proof. solve_decision. Defined.

(** [state.value] *)
Definition value (s : ConversationState) : string :=
  match s with
  | INIT => "INIT"
  | GREETING => "GREETING"
  | LISTENING => "LISTENING"
  | PROCESSING => "PROCESSING"
  | RESPONDING => "RESPONDING"
  | CLARIFYING => "CLARIFYING"
  | ERROR => "ERROR"
  | END => "END"
  end.

(** [ConversationState(state_str)]; [None] stands for [ValueError]. *)
Definition of_value (v : string) : option ConversationState :=
  list_find (fun s => value s = v)
    [INIT; GREETING; LISTENING; PROCESSING; RESPONDING; CLARIFYING; ERROR; END]
  ≫= fun p => Some (snd p).

Inductive InputQuality := EMPTY | UNCLEAR | CLEAR.

Record ConversationEngine := mkConversationEngine {
  max_clarifications : Z;
  max_silence_prompts : Z;
  max_turns : Z;
  confidence_router : ConfidenceRouter.ConfidenceRouter
}.

(** [ConversationEngine.__init__] *)
Definition new : ConversationEngine :=
  {| max_clarifications := 2;
     max_silence_prompts := 2;
     max_turns := 20;
     confidence_router := ConfidenceRouter.default_router |}.

(** The metadata dictionary returned with an ASR result; the key ["text"] is
    set on one path only. *)
Record Metadata := mkMetadata {
  meta_confidence : Q;
  meta_action : string;
  meta_language : string;
  meta_text : option string
}.

Section Engine.

(** [datetime.utcnow().isoformat()]; successive readings of the clock are not
    told apart. *)
Variable utcnow : string.

(** The reply of the language model to the quality prompt built from the user
    text (content of the first choice); [None] when the request raises. *)
Variable quality_completion : string -> option string.

Variable self : ConversationEngine.

Definition conversation_key (session_id : string) : string :=
  "conversation:" +:+ session_id.

(** [int(self.redis.hget(key, field) or "0")] *)
Definition hget_int (session_id field : string) : Store.M Z :=
  let! v := Store.hget (conversation_key session_id) field in
  Store.lift (Py.int (Py.or_else v "0")).

(** [initialize] *)
Definition initialize (session_id : string) : Store.M ConversationState :=
  Store.hset_mapping (conversation_key session_id)
    [("state", value INIT);
     ("turn_count", "0");
     ("clarification_count", "0");
     ("silence_prompts", "0");
     ("last_user_input", "");
     ("last_intent", "");
     ("created_at", utcnow);
     ("updated_at", utcnow)] ;;
  Store.ret INIT.

(** [get_state] *)
Definition get_state (session_id : string) : Store.M (option ConversationState) :=
  let! state_str := Store.hget (conversation_key session_id) "state" in
  if Py.truthy state_str
  then Store.ret (of_value (Py.or_else state_str ""))
  else Store.ret None.

(** [update_state] *)
Definition update_state (session_id : string) (new_state : ConversationState)
  : Store.M unit :=
  Store.hset (conversation_key session_id) "state" (value new_state) ;;
  Store.hset (conversation_key session_id) "updated_at" utcnow.

(** [increment_turn] *)
Definition increment_turn (session_id : string) : Store.M unit :=
  let! current := hget_int session_id "turn_count" in
  Store.hset (conversation_key session_id) "turn_count" (Py.str (current + 1)).

(** [increment_clarification] *)
Definition increment_clarification (session_id : string) : Store.M unit :=
  let! current := hget_int session_id "clarification_count" in
  Store.hset (conversation_key session_id) "clarification_count"
    (Py.str (current + 1)).

(** [increment_silence_prompt] *)
Definition increment_silence_prompt (session_id : string) : Store.M unit :=
  let! current := hget_int session_id "silence_prompts" in
  Store.hset (conversation_key session_id) "silence_prompts"
    (Py.str (current + 1)).

(** [analyze_input_quality] *)
Definition analyze_input_quality (user_text : string) (session_id : string)
  : InputQuality :=
  if negb (Py.truthy (Some user_text)) || (Py.slen (Py.strip user_text) =? 0)
  then EMPTY
  else
    let text := Py.strip user_text in
    if Py.slen text <? 3 then UNCLEAR
    else match quality_completion user_text with
         | Some content =>
           let result := Py.upper (Py.strip content) in
           if Py.contains "CLEAR" result then CLEAR else UNCLEAR
         | None => if Py.slen text >? 3 then CLEAR else UNCLEAR
         end.

(** [get_greeting] *)
Definition get_greeting : string :=
  "Hello! Welcome to SmileCare Dental Clinic. How can I help you today?".

(** [get_clarification_message] *)
Definition get_clarification_message (session_id : string) : Store.M string :=
  let! count := hget_int session_id "clarification_count" in
  if count =? 1
  then Store.ret "I didn't catch that clearly. Could you please repeat?"
  else Store.ret
    "I'm still having trouble understanding. Could you speak more clearly?".

(** [get_error_message] *)
Definition get_error_message : string :=
  "I'm having trouble understanding you. Let me connect you to a human representative who can assist you better.".

(** [get_silence_prompt] *)
Definition get_silence_prompt (session_id : string) : Store.M string :=
  let! count := hget_int session_id "silence_prompts" in
  if count =? 0
  then Store.ret "I'm listening. Please go ahead and speak."
  else if count =? 1
  then Store.ret "I'm still here. Please tell me how I can help you."
  else Store.ret
    "I didn't hear anything. If you need assistance, please speak now or I'll end this call.".

(** [get_nudge_message] *)
Definition get_nudge_message : string := "Are you still there?".

(** [get_comfort_message] *)
Definition get_comfort_message : string := "Take your time, I'm listening.".

(** [not user_text or len(user_text.strip()) == 0] *)
Definition is_blank (user_text : option string) : bool :=
  negb (Py.truthy user_text)
  || (Py.slen (Py.strip (Py.or_else user_text "")) =? 0).

(** [process_state_transition]: [(new_state, response_text, should_end)].
    The fallback after the [elif] chain is not reachable, the chain covering
    every member of the enumeration. *)
Definition process_state_transition (session_id : string)
  (user_text : option string)
  : Store.M (ConversationState * string * bool) :=
  let! current_state := get_state session_id in
  let! current_state :=
    match current_state with
    | None => initialize session_id ;; Store.ret INIT
    | Some s => Store.ret s
    end in
  match current_state with
  | INIT =>
    update_state session_id GREETING ;;
    Store.ret (GREETING, get_greeting, false)
  | GREETING =>
    update_state session_id LISTENING ;;
    Store.ret (LISTENING, "", false)
  | LISTENING =>
    if is_blank user_text then
      let! silence_count := hget_int session_id "silence_prompts" in
      increment_silence_prompt session_id ;;
      if silence_count >=? max_silence_prompts self then
        update_state session_id END ;;
        Store.ret (END, "Thank you for calling. Have a great day!", true)
      else
        let! prompt := get_silence_prompt session_id in
        Store.ret (LISTENING, prompt, false)
    else
      Store.hset (conversation_key session_id) "last_user_input"
        (Py.or_else user_text "") ;;
      update_state session_id PROCESSING ;;
      Store.ret (PROCESSING, "", false)
  | PROCESSING =>
    match analyze_input_quality (Py.or_else user_text "") session_id with
    | EMPTY =>
      increment_silence_prompt session_id ;;
      let! silence_count := hget_int session_id "silence_prompts" in
      if silence_count >=? max_silence_prompts self then
        update_state session_id END ;;
        Store.ret (END, "Thank you for calling. Have a great day!", true)
      else
        update_state session_id LISTENING ;;
        let! prompt := get_silence_prompt session_id in
        Store.ret (LISTENING, prompt, false)
    | UNCLEAR =>
      let! clarification_count := hget_int session_id "clarification_count" in
      increment_clarification session_id ;;
      if clarification_count >=? max_clarifications self then
        update_state session_id ERROR ;;
        Store.ret (ERROR, get_error_message, true)
      else
        update_state session_id CLARIFYING ;;
        let! message := get_clarification_message session_id in
        Store.ret (CLARIFYING, message, false)
    | CLEAR =>
      update_state session_id RESPONDING ;;
      Store.ret (RESPONDING, "", false)
    end
  | CLARIFYING =>
    if is_blank user_text then
      increment_silence_prompt session_id ;;
      let! silence_count := hget_int session_id "silence_prompts" in
      if silence_count >=? max_silence_prompts self then
        update_state session_id END ;;
        Store.ret (END, "Thank you for calling. Have a great day!", true)
      else
        update_state session_id LISTENING ;;
        let! prompt := get_silence_prompt session_id in
        Store.ret (LISTENING, prompt, false)
    else
      Store.hset (conversation_key session_id) "last_user_input"
        (Py.or_else user_text "") ;;
      update_state session_id PROCESSING ;;
      Store.ret (PROCESSING, "", false)
  | RESPONDING =>
    increment_turn session_id ;;
    let! turn_count := hget_int session_id "turn_count" in
    if turn_count >=? max_turns self then
      update_state session_id END ;;
      Store.ret
        (END, "Thank you for the conversation. Have a great day!", true)
    else
      update_state session_id LISTENING ;;
      Store.ret (LISTENING, "", false)
  | ERROR =>
    update_state session_id END ;;
    Store.ret (END, "", true)
  | END => Store.ret (END, "", true)
  end.

(** [process_asr_result]: [(state, response, should_end, metadata)]. *)
Definition process_asr_result (session_id : string)
  (asr_result : ConfidenceRouter.AsrResult)
  : Store.M (ConversationState * string * bool * Metadata) :=
  let confidence := default 0%Q (ConfidenceRouter.asr_confidence asr_result) in
  let language := default "en" (ConfidenceRouter.asr_language asr_result) in
  let '(action, processed_text) :=
    ConfidenceRouter.route (confidence_router self) asr_result in
  let! current_state := get_state session_id in
  match action with
  | ConfidenceRouter.REJECT =>
    increment_clarification session_id ;;
    let! clarification_count := hget_int session_id "clarification_count" in
    if clarification_count >=? max_clarifications self then
      update_state session_id ERROR ;;
      Store.ret (ERROR, get_error_message, true,
                 mkMetadata confidence "REJECT" language None)
    else
      update_state session_id CLARIFYING ;;
      Store.ret (CLARIFYING,
                 ConfidenceRouter.get_clarification_message
                   (confidence_router self) confidence,
                 false, mkMetadata confidence "REJECT" language None)
  | ConfidenceRouter.CLARIFY =>
    if Qgeb confidence 0.3 then
      let! r := process_state_transition session_id (Some processed_text) in
      Store.ret (r, mkMetadata confidence "ACCEPT" language None)
    else
      increment_clarification session_id ;;
      let! clarification_count := hget_int session_id "clarification_count" in
      if clarification_count >=? max_clarifications self then
        update_state session_id ERROR ;;
        Store.ret (ERROR, get_error_message, true,
                   mkMetadata confidence "CLARIFY" language None)
      else
        Store.hset (conversation_key session_id) "last_user_input"
          processed_text ;;
        update_state session_id CLARIFYING ;;
        Store.ret (CLARIFYING,
                   ConfidenceRouter.get_clarification_message
                     (confidence_router self) confidence,
                   false,
                   mkMetadata confidence "CLARIFY" language
                     (Some processed_text))
  | ConfidenceRouter.ACCEPT =>
    let! r := process_state_transition session_id (Some processed_text) in
    Store.ret (r, mkMetadata confidence "ACCEPT" language None)
  end.

End Engine.

End ConversationEngine.

(** ** app.py: the PCM frame loop of [websocket_voice] *)

Module Orchestrator.
Import TurnTaking.

Local Open Scope string_scope.
Local Open Scope Z_scope.

(** An outbound JSON object, as its fields. *)
Abbreviation Json := (list (string * string)).

(** [{"type": "barge_in"}] *)
Definition barge_in_message : Json := [("type", "barge_in")].

(** The local variables of the loop that barge-in reads and writes. *)
Record Loop := mkLoop {
  bot_speaking : bool;
  bot_speaking_until : Q;
  turn_engine : TurnTakingEngine
}.

Definition set_bot_speaking (b : bool) (s : Loop) : Loop :=
  mkLoop b (bot_speaking_until s) (turn_engine s).
Definition set_turn_engine (e : TurnTakingEngine) (s : Loop) : Loop :=
  mkLoop (bot_speaking s) (bot_speaking_until s) e.

Section WithVAD.

Variable vad_probability : bytes -> Q.

(** The [if bot_speaking:] block: the new variables, the messages sent, and
    whether the loop [continue]s without handing the frame to the engine.
    [now] is the reading of [time.time()]. *)
Definition barge_in_check (vad_prob now : Q) (s : Loop)
  : Loop * list Json * bool :=
  if bot_speaking s then
    if Qgeb vad_prob 0.6 then
      let e := turn_engine s in
      let e := match _barge_in_frames e with
               | None => set_barge_in_frames (Some 0) e
               | Some _ => e
               end in
      let e := set_barge_in_frames
                 (Some (default 0 (_barge_in_frames e) + 1)) e in
      if default 0 (_barge_in_frames e) >=? 2 then
        (set_turn_engine (set_barge_in_frames (Some 0) e)
           (set_bot_speaking false s),
         [barge_in_message], false)
      else (set_turn_engine e s, [], false)
    else
      let e := turn_engine s in
      let e := match _barge_in_frames e with
               | None => e
               | Some _ => set_barge_in_frames (Some 0) e
               end in
      let s := set_turn_engine e s in
      if Qle_bool now (bot_speaking_until s) then (s, [], true)
      else (set_bot_speaking false s, [], false)
  else (s, [], false).

(** One 640-byte frame taken from [pcm_buffer]: the barge-in block, then
    [turn_engine.process_chunk(frame)].  The event returned, if any, is what
    the rest of the loop body dispatches on. *)
Definition on_frame (now : Q) (s : Loop) (frame : bytes)
  : Loop * list Json * option TurnEvent :=
  let vad_prob := vad_probability frame in
  let '(s, sent, skip) := barge_in_check vad_prob now s in
  if skip then (s, sent, None)
  else
    let '(e, ev) := process_chunk vad_probability (turn_engine s) frame in
    (set_turn_engine e s, sent, ev).

End WithVAD.

End Orchestrator.

(** ** app.py: what [websocket_voice] does with a binary message *)

Module Framing.

Local Open Scope Z_scope.

(** [FRAME_SIZE] *)
Definition FRAME_SIZE : Z := 640.

#[global] Instance byte_eq_dec : EqDecision Byte.byte := Byte.byte_eq_dec.

(** [len(chunk) >= 4 and chunk[:4] == b'\x1aE\xdf\xa3'] *)
Definition is_webm (chunk : bytes) : bool :=
  (len chunk >=? 4)
  && bool_decide (take 4 chunk = [Byte.x1a; Byte.x45; Byte.xdf; Byte.xa3]).

Section Loop.

(** The state of the connection the handlers work on (the turn-taking
    engine, [bot_speaking], the stores, what has been sent). *)
Context {Conn : Type}.

(** What the legacy path does with a batch written out, and whether it
    leaves the receive loop ([break] after a response with [should_end]). *)
Variable transcribe : Conn -> bytes -> Conn * bool.

(** What the body of the frame loop does with a frame, and whether it leaves
    the frame loop ([break] after a response with [should_end]). *)
Variable handle : Conn -> bytes -> Conn * bool.

(** The legacy path for one chunk: the chunk joins [audio_buffer]; the
    fiftieth one has the whole batch written out in order and handled, and
    the buffer emptied.  The result is the batch, if any, the connection,
    the new buffer, and whether the receive loop is left. *)
Definition legacy_chunk (conn : Conn) (audio_buffer : list bytes)
  (chunk : bytes) : option bytes * Conn * list bytes * bool :=
  let audio_buffer := audio_buffer ++ [chunk] in
  if len audio_buffer >=? 50 then
    let batch := concat audio_buffer in
    let '(conn, stop) := transcribe conn batch in
    (Some batch, conn, [], stop)
  else (None, conn, audio_buffer, false).

(** A stream of legacy chunks: the batches written out, the connection, the
    buffer left, and the chunks not read because the loop was left. *)
Fixpoint legacy_stream (conn : Conn) (audio_buffer : list bytes)
  (chunks : list bytes) : list bytes * Conn * list bytes * list bytes :=
  match chunks with
  | [] => ([], conn, audio_buffer, [])
  | chunk :: chunks =>
    let '(batch, conn, audio_buffer, stop) :=
      legacy_chunk conn audio_buffer chunk in
    let out := match batch with Some b => [b] | None => [] end in
    if stop then (out, conn, audio_buffer, chunks)
    else
      let '(batches, conn, audio_buffer, unread) :=
        legacy_stream conn audio_buffer chunks in
      (out ++ batches, conn, audio_buffer, unread)
  end.

(** The [while len(pcm_buffer) >= FRAME_SIZE] loop: the frames it takes off
    the front of the buffer and handles, the connection, and what it leaves
    in the buffer; [fuel] bounds the number of iterations. *)
Fixpoint frame_loop (fuel : nat) (conn : Conn) (pcm_buffer : bytes)
  : list bytes * Conn * bytes :=
  match fuel with
  | O => ([], conn, pcm_buffer)
  | S fuel =>
    if len pcm_buffer >=? FRAME_SIZE then
      let frame := take 640 pcm_buffer in
      let pcm_buffer := drop 640 pcm_buffer in
      let '(conn, stop) := handle conn frame in
      if stop then ([frame], conn, pcm_buffer)
      else
        let '(frames, conn, rest) := frame_loop fuel conn pcm_buffer in
        (frame :: frames, conn, rest)
    else ([], conn, pcm_buffer)
  end.

(** The PCM path for one chunk: [pcm_buffer.extend(chunk)], then the loop.
    The length of the buffer is fuel enough, each iteration removing 640
    bytes. *)
Definition pcm_chunk (conn : Conn) (pcm_buffer chunk : bytes)
  : list bytes * Conn * bytes :=
  let pcm_buffer := pcm_buffer ++ chunk in
  frame_loop (length pcm_buffer) conn pcm_buffer.


End Loop.

End Framing.

(** ** The Redis keyspace as session_manager.py uses it *)

Module Kv.

Local Open Scope Z_scope.

(** A key holds a hash, a set or a list. *)
Inductive value :=
| Hash (h : gmap string string)
| Members (s : gset string)
| Items (l : list string).

(** The keys with their values and the time to live set on them.  Keys are
    not removed by the passage of time here: the properties below are
    about calls between which nothing expires. *)
Record t := mk {
  data : gmap string value;
  ttl : gmap string Z
}.

Definition empty : t := mk ∅ ∅.

(** A command either answers or raises (a command applied to a key of the
    wrong type); what was written before stays written. *)
Definition M (A : Type) : Type := t -> option A * t.

Definition ret {A} (a : A) : M A := fun db => (Some a, db).

Definition bind {A B} (m : M A) (k : A -> M B) : M B :=
  fun db => match m db with
            | (Some a, db') => k a db'
            | (None, db') => (None, db')
            end.

Definition raise {A} : M A := fun db => (None, db).

Definition put (name : string) (v : value) (db : t) : t :=
  mk (<[name := v]> (data db)) (ttl db).

Definition del (name : string) (db : t) : t :=
  mk (delete name (data db)) (delete name (ttl db)).

(** [HSET name key value] *)
Definition hset (name key value : string) : M unit :=
  fun db =>
    match data db !! name with
    | None => (Some tt, put name (Hash {[key := value]}) db)
    | Some (Hash h) => (Some tt, put name (Hash (<[key := value]> h)) db)
    | Some _ => (None, db)
    end.

(** [HSET name field value [field value ...]], one command. *)
Definition hset_mapping (name : string) (mapping : list (string * string))
  : M unit :=
  fun db =>
    let write h := foldl (fun h kv => <[fst kv := snd kv]> h) h mapping in
    match data db !! name with
    | None => (Some tt, put name (Hash (write ∅)) db)
    | Some (Hash h) => (Some tt, put name (Hash (write h)) db)
    | Some _ => (None, db)
    end.

(** [HGET name key] *)
Definition hget (name key : string) : M (option string) :=
  fun db =>
    match data db !! name with
    | None => (Some None, db)
    | Some (Hash h) => (Some (h !! key), db)
    | Some _ => (None, db)
    end.

(** [HGETALL name] *)
Definition hgetall (name : string) : M (gmap string string) :=
  fun db =>
    match data db !! name with
    | None => (Some ∅, db)
    | Some (Hash h) => (Some h, db)
    | Some _ => (None, db)
    end.

(** [SADD name member] *)
Definition sadd (name member : string) : M unit :=
  fun db =>
    match data db !! name with
    | None => (Some tt, put name (Members {[member]}) db)
    | Some (Members s) => (Some tt, put name (Members ({[member]} ∪ s)) db)
    | Some _ => (None, db)
    end.

(** [SREM name member]; a set left empty is removed. *)
Definition srem (name member : string) : M unit :=
  fun db =>
    match data db !! name with
    | None => (Some tt, db)
    | Some (Members s) =>
      let s' := s ∖ {[member]} in
      if decide (s' = ∅) then (Some tt, del name db)
      else (Some tt, put name (Members s') db)
    | Some _ => (None, db)
    end.

(** [SMEMBERS name] *)
Definition smembers (name : string) : M (gset string) :=
  fun db =>
    match data db !! name with
    | None => (Some ∅, db)
    | Some (Members s) => (Some s, db)
    | Some _ => (None, db)
    end.

(** [EXPIRE name seconds]: nothing for a missing key; a time to live that is
    not positive deletes the key. *)
Definition expire (name : string) (seconds : Z) : M unit :=
  fun db =>
    match data db !! name with
    | None => (Some tt, db)
    | Some _ =>
      if seconds <=? 0 then (Some tt, del name db)
      else (Some tt, mk (data db) (<[name := seconds]> (ttl db)))
    end.

(** The elements [start..stop] of a list, both ends included, negative
    indices counting from the end, as LRANGE and LTRIM select them. *)
Definition range (l : list string) (start stop : Z) : list string :=
  let n := len l in
  let a := if start <? 0 then Z.max 0 (n + start) else start in
  let b := if stop <? 0 then n + stop else stop in
  if (a >? b) || (a >=? n) then []
  else take (Z.to_nat (Z.min b (n - 1) - a + 1)) (drop (Z.to_nat a) l).

(** [LPUSH name value] *)
Definition lpush (name value : string) : M unit :=
  fun db =>
    match data db !! name with
    | None => (Some tt, put name (Items [value]) db)
    | Some (Items l) => (Some tt, put name (Items (value :: l)) db)
    | Some _ => (None, db)
    end.

(** [LTRIM name start stop]; a list left empty is removed. *)
Definition ltrim (name : string) (start stop : Z) : M unit :=
  fun db =>
    match data db !! name with
    | None => (Some tt, db)
    | Some (Items l) =>
      match range l start stop with
      | [] => (Some tt, del name db)
      | l' => (Some tt, put name (Items l') db)
      end
    | Some _ => (None, db)
    end.

(** [LRANGE name start stop] *)
Definition lrange (name : string) (start stop : Z) : M (list string) :=
  fun db =>
    match data db !! name with
    | None => (Some [], db)
    | Some (Items l) => (Some (range l start stop), db)
    | Some _ => (None, db)
    end.

End Kv.

Notation "'do!' x ':=' m 'in' k" := (Kv.bind m (fun x => k))
  (at level 10, x name, m at level 100, k at level 200).
Notation "m ';;!' k" := (Kv.bind m (fun _ => k))
  (at level 100, k at level 200, right associativity).

(** ** session_manager.py *)

Module SessionManager.

Local Open Scope string_scope.
Local Open Scope Z_scope.

Inductive SessionState := NEW | ACTIVE | IDLE | CLOSED.

#[global] Instance SessionState_eq_dec : EqDecision SessionState.
Proof. solve_decision. Defined.

Definition value (s : SessionState) : string :=
  match s with
  | NEW => "NEW"
  | ACTIVE => "ACTIVE"
  | IDLE => "IDLE"
  | CLOSED => "CLOSED"
  end.

(** [SessionState(state_str)]; [None] stands for [ValueError]. *)
Definition of_value (v : string) : option SessionState :=
  list_find (fun s => value s = v) [NEW; ACTIVE; IDLE; CLOSED]
  ≫= fun p => Some (snd p).

(** The thresholds kept by a [SessionManager] (the Redis connection is the
    keyspace the methods run on). *)
Record SessionManager := mkSessionManager {
  idle_timeout : Z;
  max_session_duration : Z
}.

(** The default arguments of [__init__]. *)
Definition new : SessionManager :=
  {| idle_timeout := 30; max_session_duration := 600 |}.

(** A chat message as [add_to_history] builds it. *)
Record Message := mkMessage {
  role : string;
  content : string;
  timestamp : string
}.

Section Manager.

(** Instants are seconds on the UTC clock; [isoformat] and
    [datetime.fromisoformat] ([None] for [ValueError]) are those of the
    [datetime] module. *)
Variable isoformat : Q -> string.
Variable fromisoformat : string -> option Q.

(** [json.dumps] on a message, and [json.loads] ([None] for
    [JSONDecodeError]). *)
Variable json_dumps : Message -> string.
Variable json_loads : string -> option Message.

Variable self : SessionManager.

Definition session_key (session_id : string) : string :=
  "session:" +:+ session_id.

Definition history_key (session_id : string) : string :=
  "session:" +:+ session_id +:+ ":history".

(** [create_session]; [session_id] is the fresh [uuid4] and [now] the
    reading of the clock. *)
Definition create_session (session_id : string) (now : Q)
  (user_id : option string) : Kv.M string :=
  let now := isoformat now in
  Kv.hset_mapping (session_key session_id)
    [("session_id", session_id);
     ("state", value NEW);
     ("created_at", now);
     ("last_activity", now);
     ("idle_timeout", Py.str (idle_timeout self));
     ("max_duration", Py.str (max_session_duration self));
     ("user_id", Py.or_else user_id "");
     ("metadata", "{}")] ;;!
  Kv.sadd "sessions:active" session_id ;;!
  Kv.expire (session_key session_id) (max_session_duration self + 60) ;;!
  Kv.ret session_id.

(** [get_session]: [None] for an empty answer. *)
Definition get_session (session_id : string)
  : Kv.M (option (gmap string string)) :=
  do! data := Kv.hgetall (session_key session_id) in
  Kv.ret (if decide (data = ∅) then None else Some data).

(** [update_state] *)
Definition update_state (session_id : string) (new_state : SessionState)
  : Kv.M unit :=
  Kv.hset (session_key session_id) "state" (value new_state) ;;!
  if decide (new_state = CLOSED)
  then Kv.srem "sessions:active" session_id
  else Kv.ret tt.

(** [get_session_state] *)
Definition get_session_state (session_id : string)
  : Kv.M (option SessionState) :=
  do! state_str := Kv.hget (session_key session_id) "state" in
  if Py.truthy state_str
  then Kv.ret (of_value (Py.or_else state_str ""))
  else Kv.ret None.

(** [update_activity] *)
Definition update_activity (now : Q) (session_id : string) : Kv.M bool :=
  let now := isoformat now in
  do! current_state := get_session_state session_id in
  match current_state with
  | None => Kv.ret false
  | Some current_state =>
    Kv.hset (session_key session_id) "last_activity" now ;;!
    (if bool_decide (current_state = NEW \/ current_state = IDLE)
     then update_state session_id ACTIVE
     else Kv.ret tt) ;;!
    Kv.ret true
  end.

(** Seconds elapsed at [now] since the instant stored under [field], tested
    against [bound]; a missing or unreadable field gives [False]. *)
Definition elapsed_at_least (now : Q) (session : gmap string string)
  (field : string) (bound : Z) : bool :=
  match session !! field with
  | None => false
  | Some s =>
    match fromisoformat s with
    | None => false
    | Some t => Qgeb (now - t) (inject_Z bound)
    end
  end.

(** [check_idle] *)
Definition check_idle (now : Q) (session_id : string) : Kv.M bool :=
  do! session := get_session session_id in
  match session with
  | None => Kv.ret false
  | Some session =>
    Kv.ret (elapsed_at_least now session "last_activity" (idle_timeout self))
  end.

(** [check_timeout] *)
Definition check_timeout (now : Q) (session_id : string) : Kv.M bool :=
  do! session := get_session session_id in
  match session with
  | None => Kv.ret false
  | Some session =>
    Kv.ret (elapsed_at_least now session "created_at"
              (max_session_duration self))
  end.

(** [add_to_history] *)
Definition add_to_history (now : Q) (session_id role content : string)
  : Kv.M unit :=
  let message := mkMessage role content (isoformat now) in
  Kv.lpush (history_key session_id) (json_dumps message) ;;!
  Kv.ltrim (history_key session_id) 0 49.

(** [get_history] *)
Definition get_history (session_id : string) (limit : Z)
  : Kv.M (list Message) :=
  do! messages := Kv.lrange (history_key session_id) 0 (limit - 1) in
  Kv.ret (omap json_loads (rev messages)).

(** [close_session] *)
Definition close_session (session_id : string) : Kv.M unit :=
  update_state session_id CLOSED ;;!
  Kv.expire (session_key session_id) 86400 ;;!
  Kv.expire (history_key session_id) 86400.

(** The body of the loop of [cleanup_idle_sessions] for one session;
    [now_idle] and [now_timeout] are the readings of the clock in
    [check_idle] and in [check_timeout]. *)
Definition cleanup_session (now_idle now_timeout : Q) (session_id : string)
  : Kv.M unit :=
  (do! idle := check_idle now_idle session_id in
   if idle then
     do! current_state := get_session_state session_id in
     if bool_decide (current_state = Some ACTIVE)
     then update_state session_id IDLE
     else Kv.ret tt
   else Kv.ret tt) ;;!
  do! timed_out := check_timeout now_timeout session_id in
  if timed_out then close_session session_id else Kv.ret tt.

(** [cleanup_idle_sessions]: the members of the active set are visited in
    some order, [readings] giving the two readings of the clock for each;
    an exception ends the visit and is swallowed. *)
Definition cleanup_idle_sessions (readings : string -> Q * Q) : Kv.M unit :=
  fun db =>
    let visit :=
      do! active_sessions := Kv.smembers "sessions:active" in
      foldr (fun session_id rest =>
               cleanup_session (fst (readings session_id))
                 (snd (readings session_id)) session_id ;;! rest)
        (Kv.ret tt) (elements active_sessions) in
    (Some tt, snd (visit db)).

(** The messages added one after the other. *)
Definition add_all (session_id : string) (entries : list (Q * string * string))
  : Kv.M unit :=
  foldr (fun entry rest =>
           add_to_history (fst (fst entry)) session_id
             (snd (fst entry)) (snd entry) ;;! rest)
    (Kv.ret tt) entries.

End Manager.

End SessionManager.

(** ** Reading the counters of a conversation *)

Module Counters.

Local Open Scope string_scope.
Local Open Scope Z_scope.

(** The value [int(hget(key, field) or "0")] reads; [None] when it raises. *)
Definition read (r : Redis.t) (session_id field : string) : option Z :=
  Py.int
    (Py.or_else
       (Redis.hget r (ConversationEngine.conversation_key session_id) field)
       "0").

Definition names : list string :=
  ["turn_count"; "clarification_count"; "silence_prompts"].

(** No counter of the session is lower in [r'] than in [r]. *)
Definition non_decreasing (session_id : string) (r r' : Redis.t) : Prop :=
  forall field n,
    In field names -> read r session_id field = Some n ->
    exists n', read r' session_id field = Some n' /\ n <= n'.

(** A store computation that never lowers a counter. *)
Definition monotone {A} (session_id : string) (m : Store.M A) : Prop :=
  forall r a r', m r = Some (a, r') -> non_decreasing session_id r r'.

End Counters.

(** ** Stores used in the worked examples *)

Module Scenario.

Local Open Scope string_scope.

(** Session [s1] in RESPONDING after nineteen completed turns. *)
Definition responding_store : Redis.t :=
  Redis.hset_mapping ∅ "conversation:s1"
    [("state", "RESPONDING"); ("turn_count", "19");
     ("clarification_count", "0"); ("silence_prompts", "0");
     ("last_user_input", "hello"); ("last_intent", "")].

(** Session [s1] in LISTENING, nothing said yet. *)
Definition listening_store : Redis.t :=
  Redis.hset_mapping ∅ "conversation:s1"
    [("state", "LISTENING"); ("turn_count", "0");
     ("clarification_count", "0"); ("silence_prompts", "0");
     ("last_user_input", ""); ("last_intent", "")].

(** A clock reading, and a language model that always fails. *)
Definition clock : string := "2024-01-01T00:00:00".
Definition no_model : string -> option string := fun _ => None.

(** Session [s1] after the hand-over message. *)
Definition error_store : Redis.t :=
  Redis.hset_mapping ∅ "conversation:s1"
    [("state", "ERROR"); ("turn_count", "3");
     ("clarification_count", "2"); ("silence_prompts", "0");
     ("last_user_input", ""); ("last_intent", "")].

(** A language model that finds every input unclear. *)
Definition unclear_model : string -> option string :=
  fun _ => Some " Unclear".

(** A transcription the recogniser has little confidence in. *)
Definition mumble : ConfidenceRouter.AsrResult :=
  {| ConfidenceRouter.asr_text := Some "uh";
     ConfidenceRouter.asr_confidence := Some 0.1%Q;
     ConfidenceRouter.asr_language := None |}.

(** Instants that are whole seconds, written in decimal, in place of ISO
    timestamps. *)
Definition seconds (t : Q) : string := Py.str (Qfloor t).
Definition of_seconds (s : string) : option Q := inject_Z <$> Py.int s.

(** Messages written as [role|content|timestamp], in place of JSON. *)
Fixpoint fields (s : string) : list string :=
  match s with
  | EmptyString => [""]
  | String c s' =>
    if String.eqb (String c "") "|" then "" :: fields s'
    else match fields s' with
         | field :: rest => String c field :: rest
         | [] => [String c ""]
         end
  end.

Definition dumps (m : SessionManager.Message) : string :=
  SessionManager.role m +:+ "|" +:+ SessionManager.content m +:+ "|"
  +:+ SessionManager.timestamp m.

Definition loads (s : string) : option SessionManager.Message :=
  match fields s with
  | [role; content; timestamp] =>
    Some (SessionManager.mkMessage role content timestamp)
  | _ => None
  end.

(** Three messages with the instants they are added at. *)
Definition chat : list (Q * string * string) :=
  [(100%Q, "user", "hi"); (101%Q, "assistant", "hello");
   (102%Q, "user", "bye")].

(** Session [s1] created at second 100 in an empty database, and its row. *)
Definition session_db : Kv.t :=
  snd (SessionManager.create_session seconds SessionManager.new
         "s1" 100%Q None Kv.empty).

Definition session_row : gmap string string :=
  default ∅ (fst (Kv.hgetall "session:s1" session_db)).

(** A handler that counts what it is given and never leaves the loop. *)
Definition count (n : nat) (_ : bytes) : nat * bool := (S n, false).

End Scenario.

(** * Properties of the turn-taking engine *)

Section TurnTakingProperties.
Import TurnTaking Driver.

Variable vad_probability : bytes -> Q.

Local Abbreviation process := (process_chunk vad_probability).
Local Abbreviation uncertain := (has_voice_uncertain vad_probability).
Local Abbreviation cls := (classify vad_probability).
Local Abbreviation exec := (call vad_probability).
Local Abbreviation runs := (run vad_probability).
Local Abbreviation silence_since := (trailing_silence vad_probability).
Local Abbreviation speeches := (speech_count vad_probability).

(** Integer comparisons of the code, as propositions. *)
Ltac zbool :=
  repeat match goal with
  | H : (_ >=? _) = true |- _ => rewrite Z.geb_leb in H; apply Z.leb_le in H
  | H : (_ >=? _) = false |- _ => rewrite Z.geb_leb in H; apply Z.leb_gt in H
  | H : (_ <? _) = true |- _ => apply Z.ltb_lt in H
  | H : (_ <? _) = false |- _ => apply Z.ltb_ge in H
  end.

(** Hypotheses guarded by the state the engine is in. *)
Ltac by_state :=
  repeat match goal with
  | H : ?x = ?x -> _ |- _ => specialize (H eq_refl)
  | H : ?x = ?y -> _ |- _ => clear H; assert_fails (unify x y)
  | H : _ /\ _ |- _ => destruct H
  end.

Lemma uncertain_below_trigger pcm :
  uncertain pcm = None -> Qgeb (vad_probability pcm) 0.1 = false.
Proof.
  unfold has_voice_uncertain.
  destruct (Qgeb (vad_probability pcm) 0.1); [discriminate | reflexivity].
Qed.

Lemma classify_short pcm : (len pcm <? FRAME_BYTES) = true -> cls pcm = None.
Proof. unfold classify. now intros ->. Qed.

Lemma classify_frame pcm :
  (len pcm <? FRAME_BYTES) = false -> cls pcm = uncertain pcm.
Proof. unfold classify. now intros ->. Qed.

Lemma classify_empty : cls [] = None.
Proof. reflexivity. Qed.

(** A chunk the engine does not classify leaves state and counters alone; it
    is at most appended to the buffer. *)
Lemma process_unclassified e pcm :
  cls pcm = None ->
  exists ext, process e pcm = (set_buffer (buffer e ++ ext) e, None).
Proof.
  assert (Hid : e = set_buffer (buffer e ++ []) e)
    by (rewrite app_nil_r; now destruct e).
  intros Hc. unfold process_chunk.
  destruct pcm as [|x l]; [exists []; now rewrite <- Hid|].
  destruct (len (x :: l) <? FRAME_BYTES) eqn:Hlen.
  - destruct (decide _); eauto. exists []. now rewrite <- Hid.
  - rewrite (classify_frame _ Hlen) in Hc. rewrite Hc.
    rewrite (uncertain_below_trigger _ Hc), andb_false_r.
    destruct (decide _); eauto. exists []. now rewrite <- Hid.
Qed.

(** A classified chunk is a full frame with a definite VAD verdict. *)
Lemma process_classified e pcm v :
  cls pcm = Some v ->
  process e pcm =
  match state e with
  | IDLE =>
    if v then
      (set_idle_silence_chunks 0
        (set_silence_chunks 0
          (set_speech_chunks 1
            (set_buffer pcm (set_state LISTENING e)))), None)
    else
      let e := set_idle_silence_chunks (idle_silence_chunks e + 1) e in
      if idle_silence_chunks e >=? _nudge_chunks e
      then (set_idle_silence_chunks 0 e, Some (mkTurnEvent NUDGE None))
      else (e, None)
  | LISTENING =>
    if v then
      (set_silence_chunks 0
        (set_speech_chunks (speech_chunks e + 1)
          (set_buffer (buffer e ++ pcm) e)), None)
    else
      let e := set_buffer (buffer e ++ pcm) e in
      let e := set_silence_chunks (silence_chunks e + 1) e in
      if silence_chunks e >=? _silence_grace_chunks e then
        if speech_chunks e >=? _min_speech_chunks e
        then (set_silence_chunks 0 (set_state CANDIDATE_END e), None)
        else (set_silence_chunks 0
               (set_speech_chunks 0
                 (set_buffer [] (set_state IDLE e))), None)
      else (e, None)
  | CANDIDATE_END =>
    if v then
      (set_silence_chunks 0
        (set_speech_chunks (speech_chunks e + 1)
          (set_buffer (buffer e ++ pcm)
            (set_state LISTENING e))), None)
    else
      let e := set_buffer (buffer e ++ pcm) e in
      let e := set_silence_chunks (silence_chunks e + 1) e in
      if silence_chunks e >=? _confirmation_chunks e
      then (e, Some (mkTurnEvent TURN_END (Some (buffer e))))
      else (e, None)
  | WAITING_INCOMPLETE =>
    if v then
      (set_silence_chunks 0
        (set_speech_chunks (speech_chunks e + 1)
          (set_buffer (buffer e ++ pcm)
            (set_state LISTENING e))), None)
    else
      let e := set_silence_chunks (silence_chunks e + 1) e in
      if silence_chunks e >=? _comfort_wait_chunks e
      then (_reset e, Some (mkTurnEvent COMFORT None))
      else if silence_chunks e >=? _incomplete_wait_chunks e
      then (_reset e, Some (mkTurnEvent CONTINUATION_CUE None))
      else (e, None)
  end.
Proof.
  intros Hc. unfold process_chunk.
  destruct pcm as [|x l]; [discriminate|].
  destruct (len (x :: l) <? FRAME_BYTES) eqn:Hlen.
  - rewrite (classify_short _ Hlen) in Hc. discriminate.
  - rewrite (classify_frame _ Hlen) in Hc. now rewrite Hc.
Qed.

Lemma trailing_silence_app cs cs' acc :
  silence_since acc (cs ++ cs') = silence_since (silence_since acc cs) cs'.
Proof.
  revert acc. induction cs as [|c cs IH]; intros acc; [reflexivity|].
  destruct c as [pcm| |]; simpl; [|apply IH..].
  destruct (cls pcm) as [[|]|]; apply IH.
Qed.

Lemma speech_count_app cs cs' :
  speeches (cs ++ cs') = speeches cs + speeches cs'.
Proof.
  induction cs as [|c cs IH]; [reflexivity|].
  destruct c as [pcm| |]; simpl; rewrite IH; lia.
Qed.

Lemma run_snoc e cs c :
  fst (runs e (cs ++ [c])) = fst (exec (fst (runs e cs)) c).
Proof.
  revert e. induction cs as [|c' cs IH]; intros e; simpl.
  - now destruct (exec e c).
  - destruct (exec e c') as [e1 ev1]. specialize (IH e1).
    destruct (runs e1 (cs ++ [c])), (runs e1 cs). simpl in *. exact IH.
Qed.

Lemma counters_ok_step e0 t sp e c :
  counters_ok e0 t sp e ->
  counters_ok e0 (silence_since t [c]) (sp + speeches [c]) (fst (exec e c)).
Proof.
  intros (Hth & Hl & Hc & Hsp & Hnn).
  destruct c as [pcm| |]; simpl.
  - destruct (cls pcm) as [v|] eqn:Hv.
    + rewrite (process_classified _ _ _ Hv).
      destruct e as [cm st buf sil spc idl csf g cf mn nd iw cw bf].
      unfold counters_ok, same_thresholds in *; simpl in *.
      destruct st, v; simpl;
        repeat match goal with
        | |- context [if ?b then _ else _] => destruct b eqn:?; simpl
        end; zbool; by_state; subst;
        repeat split; intros; try discriminate; try lia.
    + destruct (process_unclassified e pcm Hv) as [ext ->].
      destruct e; unfold counters_ok, same_thresholds in *; simpl in *.
      repeat split; try tauto; try lia.
  - destruct e; unfold counters_ok, same_thresholds in *; simpl in *.
    repeat split; intros; try discriminate; try tauto; try lia.
  - destruct e; unfold counters_ok, same_thresholds in *; simpl in *.
    repeat split; intros; try discriminate; try tauto; try lia.
Qed.

Lemma counters_ok_init chunk config e0 :
  init chunk config = Some e0 -> counters_ok e0 0 0 e0.
Proof.
  unfold init. destruct (decide _); [discriminate|]. intros [= <-].
  unfold counters_ok, same_thresholds; simpl.
  repeat split; intros; try discriminate; lia.
Qed.

Lemma counters_ok_run e0 cs :
  counters_ok e0 0 0 e0 ->
  counters_ok e0 (silence_since 0 cs) (speeches cs) (fst (runs e0 cs)).
Proof.
  intros H0. induction cs as [|c cs IH] using rev_ind; [exact H0|].
  rewrite trailing_silence_app, speech_count_app, run_snoc.
  now apply counters_ok_step.
Qed.

(** Where a TURN_END can come from. *)
Lemma turn_end_source e pcm e' ev :
  process e pcm = (e', Some ev) -> type ev = TURN_END ->
  cls pcm = Some false /\ state e = CANDIDATE_END /\
  e' = set_silence_chunks (silence_chunks e + 1)
         (set_buffer (buffer e ++ pcm) e) /\
  _confirmation_chunks e <= silence_chunks e + 1 /\
  ev = mkTurnEvent TURN_END (Some (buffer e ++ pcm)).
Proof.
  intros Hp Ht. destruct (cls pcm) as [v|] eqn:Hv.
  - rewrite (process_classified _ _ _ Hv) in Hp.
    destruct e as [cm st buf sil spc idl csf g cf mn nd iw cw bf].
    simpl in *.
    destruct st, v; simpl in Hp;
      repeat match type of Hp with
      | context [if ?b then _ else _] => destruct b eqn:?; simpl in Hp
      end; inversion Hp; subst; simpl in Ht; try discriminate.
    zbool. repeat split; try reflexivity; lia.
  - destruct (process_unclassified e pcm Hv) as [ext Hb].
    rewrite Hb in Hp. discriminate.
Qed.

(** C1: whenever [process_chunk] returns a TURN_END event, the chunks fed so
    far (the one that triggered the event included) end with at least
    [silence_grace_chunks + confirmation_chunks] chunks classified as silence
    since the last chunk classified as speech.  The run may interleave calls
    to [turn_end_incomplete] and [finalize_turn]. *)
Theorem turn_end_after_grace_and_confirmation chunk config e0 cs pcm e' ev :
  init chunk config = Some e0 ->
  process_chunk vad_probability (fst (run vad_probability e0 cs)) pcm
  = (e', Some ev) ->
  type ev = TURN_END ->
  _silence_grace_chunks e0 + _confirmation_chunks e0
  <= trailing_silence vad_probability 0 (cs ++ [Chunk pcm]).
Proof.
  intros Hinit Hp Ht.
  pose proof (counters_ok_run e0 cs (counters_ok_init _ _ _ Hinit))
    as (Hth & _ & Hc & _).
  destruct (turn_end_source _ _ _ _ Hp Ht) as (Hv & Hst & _ & Hconf & _).
  destruct (Hc Hst) as [Hgrace _].
  destruct Hth as (_ & Hcf & _).
  rewrite trailing_silence_app. simpl. rewrite Hv. lia.
Qed.

(** C6: whenever [process_chunk] returns a TURN_END event, the engine's
    [speech_chunks] is at least [min_speech_chunks]; the counter never exceeds
    the number of chunks classified as speech that were fed. *)
Theorem turn_end_has_min_speech chunk config e0 cs pcm e' ev :
  init chunk config = Some e0 ->
  process_chunk vad_probability (fst (run vad_probability e0 cs)) pcm
  = (e', Some ev) ->
  type ev = TURN_END ->
  _min_speech_chunks e' <= speech_chunks e' /\
  speech_chunks e' <= speech_count vad_probability (cs ++ [Chunk pcm]).
Proof.
  intros Hinit Hp Ht.
  pose proof (counters_ok_run e0 cs (counters_ok_init _ _ _ Hinit))
    as (Hth & _ & Hc & Hsp & _).
  destruct (turn_end_source _ _ _ _ Hp Ht) as (Hv & Hst & -> & _ & _).
  destruct (Hc Hst) as [_ Hmin].
  destruct Hth as (_ & _ & Hmn & _).
  rewrite speech_count_app. simpl. rewrite Hv.
  destruct (fst (runs e0 cs)); simpl in *. lia.
Qed.

Lemma run_cons_fst e c cs :
  fst (runs e (c :: cs)) = fst (runs (fst (exec e c)) cs).
Proof.
  cbn [run]. destruct (exec e c) as [e1 ev]. cbn [fst].
  now destruct (runs e1 cs).
Qed.

(** In CANDIDATE_END with the confirmation window elapsed, chunks that are not
    classified as speech only lengthen the buffer. *)
Lemma candidate_end_persists further : forall e,
  state e = CANDIDATE_END ->
  _confirmation_chunks e <= silence_chunks e ->
  Forall (fun pcm => cls pcm <> Some true) further ->
  let e2 := fst (runs e (map Chunk further)) in
  state e2 = CANDIDATE_END /\
  _confirmation_chunks e2 = _confirmation_chunks e /\
  _confirmation_chunks e <= silence_chunks e2 /\
  exists ext, buffer e2 = buffer e ++ ext.
Proof.
  induction further as [|pcm further IH]; intros e Hst Hconf Hall.
  - simpl. repeat split; try lia; auto. exists []. now rewrite app_nil_r.
  - inversion Hall as [|? ? Hpcm Hrest]; subst.
    cbn zeta. rewrite map_cons, run_cons_fst. simpl exec.
    assert (state (fst (process e pcm)) = CANDIDATE_END /\
            _confirmation_chunks (fst (process e pcm))
            = _confirmation_chunks e /\
            _confirmation_chunks e <= silence_chunks (fst (process e pcm)) /\
            exists ext, buffer (fst (process e pcm)) = buffer e ++ ext)
      as (Hst1 & Hcf1 & Hsil1 & ext1 & Hbuf1).
    { destruct (cls pcm) as [[|]|] eqn:Hv; [congruence| |].
      - rewrite (process_classified _ _ _ Hv), Hst.
        destruct e as [cm st buf sil spc idl csf g cf mn nd iw cw bf].
        simpl in *.
        destruct (sil + 1 >=? cf) eqn:Hge; zbool; [|lia].
        simpl. repeat split; try lia; try assumption. now exists pcm.
      - destruct (process_unclassified e pcm Hv) as [ext Hb].
        rewrite Hb. destruct e; simpl in *.
        repeat split; try lia; eauto. }
    destruct (IH (fst (process e pcm)) Hst1) as (H1 & H2 & H3 & ext2 & H4);
      [lia | assumption |].
    repeat split; try lia; try congruence.
    exists (ext1 ++ ext2). now rewrite H4, Hbuf1, app_assoc.
Qed.

(** C10, as amended: a TURN_END event leaves the engine in CANDIDATE_END, and
    for as long as no chunk classified as speech arrives (and neither
    [finalize_turn] nor [turn_end_incomplete] is called) it stays there, every
    further chunk classified as silence returning another TURN_END event
    whose buffer is the earlier event's buffer followed by at least that
    chunk. *)
Theorem turn_end_repeats_while_silent e pcm e1 ev further pcm' :
  process_chunk vad_probability e pcm = (e1, Some ev) ->
  type ev = TURN_END ->
  Forall (fun c => classify vad_probability c <> Some true) further ->
  classify vad_probability pcm' = Some false ->
  let e2 := fst (run vad_probability e1 (map Chunk further)) in
  state e1 = CANDIDATE_END /\ state e2 = CANDIDATE_END /\
  exists e3 prev ext,
    ev_buffer ev = Some prev /\ ext <> [] /\
    process_chunk vad_probability e2 pcm'
    = (e3, Some (mkTurnEvent TURN_END (Some (prev ++ ext)))) /\
    state e3 = CANDIDATE_END.
Proof.
  intros Hp Ht Hall Hv'.
  destruct (turn_end_source _ _ _ _ Hp Ht) as (_ & Hst & He1 & Hconf & ->).
  assert (Hst1 : state e1 = CANDIDATE_END) by (subst e1; now destruct e).
  assert (Hc1 : _confirmation_chunks e1 <= silence_chunks e1)
    by (subst e1; now destruct e).
  assert (Hb1 : buffer e1 = buffer e ++ pcm) by (subst e1; now destruct e).
  destruct (candidate_end_persists further e1 Hst1 Hc1 Hall)
    as (Hst2 & Hcf2 & Hsil2 & ext & Hbuf2).
  cbn zeta. split; [assumption|]. split; [assumption|].
  rewrite (process_classified _ _ _ Hv'), Hst2.
  set (e2 := fst (runs e1 (map Chunk further))) in *.
  assert (Hge : (silence_chunks e2 + 1 >=? _confirmation_chunks e2) = true)
    by (rewrite Z.geb_leb; apply Z.leb_le; lia).
  destruct e2 as [cm st buf sil spc idl csf g cf mn nd iw cw bf].
  simpl in *. rewrite Hge.
  eexists _, (buffer e ++ pcm), (ext ++ pcm'). simpl.
  split; [reflexivity|]. split.
  - intros Hnil. apply app_eq_nil in Hnil as [_ ->].
    rewrite classify_empty in Hv'. discriminate.
  - split.
    + subst buf. rewrite Hb1, <- !app_assoc. reflexivity.
    + exact Hst2.
Qed.

(** C9: [finalize_turn] leaves the engine IDLE with an empty buffer and its
    four counters at zero, whatever the state before; calling it a second
    time changes nothing. *)
Theorem finalize_turn_idempotent e :
  finalize_turn (finalize_turn e) = finalize_turn e /\
  state (finalize_turn e) = IDLE /\
  buffer (finalize_turn e) = [] /\
  speech_chunks (finalize_turn e) = 0 /\
  silence_chunks (finalize_turn e) = 0 /\
  idle_silence_chunks (finalize_turn e) = 0 /\
  consecutive_speech_frames (finalize_turn e) = 0.
Proof. destruct e. cbv. repeat split. Qed.

(** The probabilities 0.3 and 0.5 are at or above the 0.1 threshold of
    [has_voice_uncertain]: such a chunk is speech, not uncertain. *)
Lemma weak_probability_is_speech pcm :
  (vad_probability pcm == 0.3 \/ vad_probability pcm == 0.5)%Q ->
  uncertain pcm = Some true.
Proof.
  intros H. unfold has_voice_uncertain, Qgeb.
  assert (Hle : Qle_bool 0.1 (vad_probability pcm) = true).
  { apply Qle_bool_iff. destruct H as [-> | ->]; discriminate. }
  now rewrite Hle.
Qed.

(** Hence a full frame of probability 0.3 or 0.5 moves the counters in
    LISTENING and leaves CANDIDATE_END. *)
Lemma weak_frame_is_counted e pcm :
  (len pcm <? FRAME_BYTES) = false ->
  (vad_probability pcm == 0.3 \/ vad_probability pcm == 0.5)%Q ->
  state e = LISTENING \/ state e = CANDIDATE_END ->
  let e' := fst (process e pcm) in
  state e' = LISTENING /\
  speech_chunks e' = speech_chunks e + 1 /\
  silence_chunks e' = 0 /\
  buffer e' = buffer e ++ pcm.
Proof.
  intros Hlen Hp Hst.
  assert (Hv : cls pcm = Some true)
    by (rewrite (classify_frame _ Hlen); now apply weak_probability_is_speech).
  cbn zeta. rewrite (process_classified _ _ _ Hv).
  destruct e; simpl in *. destruct Hst as [-> | ->]; simpl; auto.
Qed.

(** In IDLE such a frame starts LISTENING, as any speech frame does. *)
Lemma weak_frame_starts_listening e pcm :
  (len pcm <? FRAME_BYTES) = false ->
  (vad_probability pcm == 0.3 \/ vad_probability pcm == 0.5)%Q ->
  state e = IDLE ->
  let e' := fst (process e pcm) in
  state e' = LISTENING /\ speech_chunks e' = 1 /\
  silence_chunks e' = 0 /\ buffer e' = pcm.
Proof.
  intros Hlen Hp Hst.
  assert (Hv : cls pcm = Some true)
    by (rewrite (classify_frame _ Hlen); now apply weak_probability_is_speech).
  cbn zeta. rewrite (process_classified _ _ _ Hv).
  destruct e; simpl in *. subst. simpl. auto.
Qed.

Lemma run_cons_snd e c cs :
  snd (runs e (c :: cs)) = snd (exec e c) :: snd (runs (fst (exec e c)) cs).
Proof.
  cbn [run]. destruct (exec e c) as [e1 ev]. cbn [fst snd].
  now destruct (runs e1 cs).
Qed.

Lemma waiting_ok_step e0 e c :
  1 <= _incomplete_wait_chunks e0 ->
  _incomplete_wait_chunks e0 < _comfort_wait_chunks e0 ->
  waiting_ok e0 e ->
  waiting_ok e0 (fst (exec e c)) /\
  type <$> snd (exec e c) <> Some COMFORT.
Proof.
  intros H1 Hlt (Hth & Hw).
  destruct c as [pcm| |]; simpl.
  - destruct (cls pcm) as [v|] eqn:Hv.
    + rewrite (process_classified _ _ _ Hv).
      destruct e as [cm st buf sil spc idl csf g cf mn nd iw cw bf].
      unfold waiting_ok, same_thresholds in *; simpl in *.
      destruct st, v; simpl;
        repeat match goal with
        | |- context [if ?b then _ else _] => destruct b eqn:?; simpl
        end; zbool; by_state; subst;
        repeat split; intros; try discriminate; try lia.
    + destruct (process_unclassified e pcm Hv) as [ext ->].
      destruct e; unfold waiting_ok, same_thresholds in *; simpl in *.
      repeat split; try tauto; try lia; discriminate.
  - destruct e; unfold waiting_ok, same_thresholds in *; simpl in *.
    repeat split; intros; try discriminate; try tauto; try lia.
  - destruct e; unfold waiting_ok, same_thresholds in *; simpl in *.
    repeat split; intros; try discriminate; try tauto; try lia.
Qed.

Lemma no_comfort_from e0 cs : forall e,
  1 <= _incomplete_wait_chunks e0 ->
  _incomplete_wait_chunks e0 < _comfort_wait_chunks e0 ->
  waiting_ok e0 e ->
  Forall (fun ev => type <$> ev <> Some COMFORT) (snd (runs e cs)).
Proof.
  induction cs as [|c cs IH]; intros e H1 Hlt He; [constructor|].
  rewrite run_cons_snd.
  destruct (waiting_ok_step e0 e c H1 Hlt He) as [He' Hev].
  constructor; auto.
Qed.

Lemma comfort_unreachable chunk config e0 cs :
  init chunk config = Some e0 ->
  _incomplete_wait_chunks e0 < _comfort_wait_chunks e0 ->
  Forall (fun ev => type <$> ev <> Some COMFORT) (snd (runs e0 cs)).
Proof.
  intros Hinit Hlt. apply (no_comfort_from e0); [|assumption|].
  - unfold init in Hinit. destruct (decide _); [discriminate|].
    injection Hinit as <-. simpl. unfold chunks_of_ms. lia.
  - unfold init in Hinit. destruct (decide _); [discriminate|].
    injection Hinit as <-. unfold waiting_ok, same_thresholds; simpl.
    repeat split. discriminate.
Qed.

End TurnTakingProperties.

(** ** The engine on concrete frames *)

Section TurnTakingRuns.
Import TurnTaking Driver.

Local Abbreviation V := energy_probability.

Lemma init_default : init CHUNK_MS ∅ = Some default_engine.
Proof. vm_compute. reflexivity. Qed.

Lemma seventh_silent_frame_ends_turn :
  exists e' b,
    process_chunk V before_turn_end silent_frame
    = (e', Some (mkTurnEvent TURN_END b)).
Proof. eexists _, _. vm_compute. reflexivity. Qed.

(** The default engine, on the utterance followed by a seventh silent frame. *)
Lemma turn_end_after_grace_and_confirmation_witness :
  5 + 2 <= trailing_silence V 0 (utterance ++ [Chunk silent_frame]).
Proof.
  pose (r := process_chunk V before_turn_end silent_frame).
  apply (turn_end_after_grace_and_confirmation V CHUNK_MS ∅ default_engine
           utterance silent_frame (fst r)
           (default (mkTurnEvent NUDGE None) (snd r))).
  - vm_compute. reflexivity.
  - vm_compute. reflexivity.
  - vm_compute. reflexivity.
Defined.

(** The same run: two speech chunks were fed and counted. *)
Lemma turn_end_has_min_speech_witness :
  let e' := fst (process_chunk V before_turn_end silent_frame) in
  _min_speech_chunks e' <= speech_chunks e' /\
  speech_chunks e' <= speech_count V (utterance ++ [Chunk silent_frame]).
Proof.
  pose (r := process_chunk V before_turn_end silent_frame).
  apply (turn_end_has_min_speech V CHUNK_MS ∅ default_engine
           utterance silent_frame (fst r)
           (default (mkTurnEvent NUDGE None) (snd r))).
  - vm_compute. reflexivity.
  - vm_compute. reflexivity.
  - vm_compute. reflexivity.
Defined.

(** After the first TURN_END, a silent frame, a short chunk, and one more
    silent frame. *)
Lemma turn_end_repeats_while_silent_witness :
  let r := process_chunk V before_turn_end silent_frame in
  let e2 := fst (run V (fst r) (map Chunk [silent_frame; short_chunk])) in
  state (fst r) = CANDIDATE_END /\ state e2 = CANDIDATE_END /\
  exists e3 prev ext,
    (snd r ≫= ev_buffer) = Some prev /\ ext <> [] /\
    process_chunk V e2 silent_frame
    = (e3, Some (mkTurnEvent TURN_END (Some (prev ++ ext)))) /\
    state e3 = CANDIDATE_END.
Proof.
  pose (r := process_chunk V before_turn_end silent_frame).
  apply (turn_end_repeats_while_silent V before_turn_end silent_frame (fst r)
           (default (mkTurnEvent NUDGE None) (snd r))
           [silent_frame; short_chunk] silent_frame).
  - vm_compute. reflexivity.
  - vm_compute. reflexivity.
  - repeat constructor; vm_compute; discriminate.
  - vm_compute. reflexivity.
Defined.

(** C10, counterexample: after a TURN_END a loud frame arrives (with neither
    [finalize_turn] nor [turn_end_incomplete] called); the engine is back in
    LISTENING and the next silent frame returns no event. *)
Lemma speech_after_turn_end_leaves_candidate_end :
  let e1 := fst (process_chunk V before_turn_end silent_frame) in
  let e2 := fst (process_chunk V e1 loud_frame) in
  type <$> snd (process_chunk V before_turn_end silent_frame) = Some TURN_END /\
  state e1 = CANDIDATE_END /\
  classify V loud_frame = Some true /\
  classify V silent_frame = Some false /\
  state e2 = LISTENING /\
  snd (process_chunk V e2 silent_frame) = None.
Proof. vm_compute. repeat split. Qed.

(** C2, failing input: a full frame of probability 0.5 processed in LISTENING
    (one speech chunk, two silent chunks so far) is counted as speech and
    clears the silence counter; a full frame of probability 0.3 processed in
    CANDIDATE_END sends the engine back to LISTENING. *)
Theorem uncertain_frames_are_counted_as_speech :
  let listening :=
    fst (run V default_engine
           (map Chunk [loud_frame; silent_frame; silent_frame])) in
  let candidate :=
    fst (run V default_engine
           (map Chunk (repeat loud_frame 2 ++ repeat silent_frame 5))) in
  (V faint_frame == 0.5)%Q /\ (V weak_frame == 0.3)%Q /\
  len faint_frame = FRAME_BYTES /\ len weak_frame = FRAME_BYTES /\
  state listening = LISTENING /\
  speech_chunks listening = 1 /\ silence_chunks listening = 2 /\
  speech_chunks (fst (process_chunk V listening faint_frame)) = 2 /\
  silence_chunks (fst (process_chunk V listening faint_frame)) = 0 /\
  state candidate = CANDIDATE_END /\
  state (fst (process_chunk V candidate weak_frame)) = LISTENING.
Proof. vm_compute. repeat split. Qed.

(** C8, failing input: the default engine, put in WAITING_INCOMPLETE after a
    TURN_END, is fed eight silent chunks (1600 ms).  The second one returns
    CONTINUATION_CUE and resets the engine to IDLE; no chunk returns
    COMFORT. *)
Theorem comfort_is_preempted_by_continuation_cue :
  let waiting :=
    turn_end_incomplete
      (fst (process_chunk V before_turn_end silent_frame)) in
  state waiting = WAITING_INCOMPLETE /\
  _incomplete_wait_chunks waiting = 2 /\
  _comfort_wait_chunks waiting = 8 /\
  map (fmap type) (snd (run V waiting (map Chunk (repeat silent_frame 8))))
  = [None; Some CONTINUATION_CUE; None; None; None; None; None; None] /\
  state (fst (run V waiting (map Chunk (repeat silent_frame 2)))) = IDLE.
Proof. vm_compute. repeat split. Qed.

(** With the default thresholds no sequence of calls ever returns COMFORT. *)
Lemma default_engine_never_comforts vad_probability cs :
  Forall (fun ev => type <$> ev <> Some COMFORT)
    (snd (run vad_probability default_engine cs)).
Proof.
  apply (comfort_unreachable vad_probability CHUNK_MS ∅).
  - exact init_default.
  - reflexivity.
Qed.

End TurnTakingRuns.

(** * Properties of the confidence router *)

Section ConfidenceRouting.
Import ConfidenceRouter.

Lemma Qgeb_spec (x y : Q) : reflect (y <= x)%Q (Qgeb x y).
Proof.
  unfold Qgeb. pose proof (Qle_bool_iff y x) as H.
  destruct (Qle_bool y x); constructor; [now apply H|].
  intros Hle. apply H in Hle. discriminate.
Qed.

(** C4: with the default thresholds, [route] answers ACCEPT exactly for a
    confidence of at least 0.8, CLARIFY exactly for one in [0.2, 0.8) and
    REJECT exactly for one below 0.2 (a missing confidence counts as 0.0). *)
Theorem default_route_by_confidence (asr_result : AsrResult) :
  let confidence := default 0%Q (asr_confidence asr_result) in
  let action := fst (route default_router asr_result) in
  (action = ACCEPT <-> (0.8 <= confidence)%Q) /\
  (action = CLARIFY <-> (0.2 <= confidence /\ confidence < 0.8)%Q) /\
  (action = REJECT <-> (confidence < 0.2)%Q).
Proof.
  cbn zeta. unfold route. simpl high_threshold. simpl low_threshold.
  set (c := default 0%Q (asr_confidence asr_result)).
  destruct (Qgeb_spec c 0.8) as [Hh|Hh];
    [|destruct (Qgeb_spec c 0.2) as [Hl|Hl]]; simpl;
    repeat split; intros; try discriminate; try reflexivity;
    try (exfalso; lra); try lra.
Qed.

End ConfidenceRouting.

(** * Properties of barge-in *)

Section BargeIn.
Import TurnTaking Driver Orchestrator.

Variable vad_probability : bytes -> Q.

Local Abbreviation frame_step := (on_frame vad_probability).

(** A frame at or above the barge-in threshold is speech for the engine,
    which returns no event on speech. *)
Lemma loud_frame_no_event e frame :
  (0.6 <= vad_probability frame)%Q ->
  snd (process_chunk vad_probability e frame) = None.
Proof.
  intros Hp.
  destruct (classify vad_probability frame) as [v|] eqn:Hv.
  - assert (v = true) as ->.
    { unfold classify in Hv.
      destruct (len frame <? FRAME_BYTES); [discriminate|].
      unfold has_voice_uncertain in Hv.
      destruct (Qgeb_spec (vad_probability frame) 0.1) as [|Hn];
        [congruence | exfalso; apply Hn; lra]. }
    rewrite (process_classified _ _ _ _ Hv).
    destruct e as [cm st buf sil spc idl csf g cf mn nd iw cw bf].
    now destruct st.
  - destruct (process_unclassified vad_probability e frame Hv) as [ext ->].
    reflexivity.
Qed.

(** The engine never touches the barge-in counter. *)
Lemma process_chunk_keeps_barge_in_frames e frame :
  _barge_in_frames (fst (process_chunk vad_probability e frame))
  = _barge_in_frames e.
Proof.
  destruct (classify vad_probability frame) as [v|] eqn:Hv.
  - rewrite (process_classified _ _ _ _ Hv).
    destruct e as [cm st buf sil spc idl csf g cf mn nd iw cw bf].
    simpl.
    destruct st, v; simpl;
      repeat match goal with
      | |- context [if ?b then _ else _] => destruct b eqn:?; simpl
      end; reflexivity.
  - destruct (process_unclassified vad_probability e frame Hv) as [ext ->].
    now destruct e.
Qed.

(** A loud frame while the bot speaks: [n] being the counter before (zero if
    absent), barge-in fires when [n + 1] reaches 2. *)
Lemma loud_frame_while_speaking now s frame :
  bot_speaking s = true ->
  (0.6 <= vad_probability frame)%Q ->
  let n := default 0 (_barge_in_frames (turn_engine s)) in
  let r := frame_step now s frame in
  snd r = None /\
  if n + 1 >=? 2
  then snd (fst r) = [barge_in_message] /\
       bot_speaking (fst (fst r)) = false
  else snd (fst r) = [] /\
       bot_speaking (fst (fst r)) = true /\
       _barge_in_frames (turn_engine (fst (fst r))) = Some (n + 1).
Proof.
  intros Hb Hp. cbn zeta. unfold on_frame, barge_in_check. rewrite Hb.
  destruct (Qgeb_spec (vad_probability frame) 0.6) as [_|Hn];
    [|contradiction].
  destruct s as [b u e]. cbn [turn_engine].
  assert (Hn : default 0
            (_barge_in_frames
               (set_barge_in_frames
                  (Some (default 0
                     (_barge_in_frames
                        match _barge_in_frames e with
                        | Some _ => e
                        | None => set_barge_in_frames (Some 0) e
                        end) + 1))
                  match _barge_in_frames e with
                  | Some _ => e
                  | None => set_barge_in_frames (Some 0) e
                  end))
          = default 0 (_barge_in_frames e) + 1)
    by (destruct e as [? ? ? ? ? ? ? ? ? ? ? ? ? [n|]]; reflexivity).
  rewrite Hn.
  destruct (default 0 (_barge_in_frames e) + 1 >=? 2) eqn:Hge.
  - match goal with
    | |- context [process_chunk vad_probability ?e' frame] =>
      pose proof (loud_frame_no_event e' frame Hp) as Hev;
      destruct (process_chunk vad_probability e' frame) as [e2 ev2]
    end.
    simpl in *. now subst.
  - match goal with
    | |- context [process_chunk vad_probability ?e' frame] =>
      pose proof (loud_frame_no_event e' frame Hp) as Hev;
      pose proof (process_chunk_keeps_barge_in_frames e' frame) as Hbf;
      destruct (process_chunk vad_probability e' frame) as [e2 ev2]
    end.
    simpl in *. subst. repeat split; try assumption.
    rewrite Hbf. destruct e as [? ? ? ? ? ? ? ? ? ? ? ? ? [n|]]; reflexivity.
Qed.

(** A quiet frame while the bot speaks sends nothing. *)
Lemma quiet_frame_while_speaking now s frame :
  (vad_probability frame < 0.6)%Q ->
  snd (fst (frame_step now s frame)) = [].
Proof.
  intros Hp. unfold on_frame, barge_in_check.
  destruct (bot_speaking s).
  - destruct (Qgeb_spec (vad_probability frame) 0.6) as [Hge|_];
      [exfalso; lra|].
    destruct (Qle_bool now _); simpl; [reflexivity|].
    now destruct (process_chunk _ _ frame).
  - now destruct (process_chunk _ _ frame).
Qed.


End BargeIn.


(** The same run with two loud frames: the second one sends the message. *)
Example two_loud_frames_barge_in :
  let V := Driver.energy_probability in
  let s := Orchestrator.mkLoop true 5 Driver.default_engine in
  let r1 := Orchestrator.on_frame V 1 s Driver.loud_frame in
  let r2 := Orchestrator.on_frame V 1 (fst (fst r1)) Driver.loud_frame in
  snd (fst r1) = [] /\
  snd (fst r2) = [Orchestrator.barge_in_message] /\
  Orchestrator.bot_speaking (fst (fst r2)) = false.
Proof. vm_compute. repeat split. Qed.

(** * Properties of the conversation engine *)

Section RedisFacts.

Implicit Types (r : Redis.t) (name key value : string).

Lemma hget_hset_eq r name key value :
  Redis.hget (Redis.hset r name key value) name key = Some value.
Proof.
  unfold Redis.hget, Redis.hset, Redis.hgetall.
  rewrite lookup_insert_eq. simpl. apply lookup_insert_eq.
Qed.

Lemma hget_hset_ne r name key key' value :
  key <> key' ->
  Redis.hget (Redis.hset r name key value) name key' = Redis.hget r name key'.
Proof.
  intros Hne. unfold Redis.hget, Redis.hset, Redis.hgetall.
  rewrite lookup_insert_eq. simpl. now rewrite lookup_insert_ne.
Qed.

(** [str] and [int] are inverse on the integers. *)
Lemma int_str n : Py.int (Py.str n) = Some n.
Proof.
  unfold Py.int, Py.str.
  rewrite NilZero.isi.
  - simpl. f_equal. apply DecimalZ.of_to.
  - destruct n as [|p|p]; simpl; try discriminate.
    intros [= H]. exact (DecimalPos.Unsigned.to_uint_nonnil p H).
  - destruct n as [|p|p]; simpl; try discriminate.
    intros [= H]. exact (DecimalPos.Unsigned.to_uint_nonnil p H).
Qed.

Lemma str_nonempty n : Py.str n <> ""%string.
Proof.
  intros H. pose proof (int_str n) as Hn. rewrite H in Hn. discriminate.
Qed.

Lemma or_else_str n d : Py.or_else (Some (Py.str n)) d = Py.str n.
Proof.
  pose proof (str_nonempty n). unfold Py.or_else.
  now destruct (Py.str n).
Qed.

End RedisFacts.

Section ConversationProperties.
Import ConversationEngine.

Local Open Scope string_scope.
Local Open Scope Z_scope.

Variable utcnow : string.
Variable quality_completion : string -> option string.
Variable self : ConversationEngine.

Local Abbreviation step :=
  (process_state_transition utcnow quality_completion self).

Lemma get_state_is sid r st :
  Redis.hget r (conversation_key sid) "state" = Some (value st) ->
  get_state sid r = Some (Some st, r).
Proof.
  intros H. unfold get_state, Store.bind, Store.hget, Store.ret.
  rewrite H. now destruct st.
Qed.

Lemma hget_int_is sid field r n :
  Py.int (Py.or_else (Redis.hget r (conversation_key sid) field) "0") = Some n ->
  hget_int sid field r = Some (n, r).
Proof.
  intros H. unfold hget_int, Store.bind, Store.hget, Store.lift.
  now rewrite H.
Qed.

Lemma hget_int_after_hset sid field r n :
  hget_int sid field (Redis.hset r (conversation_key sid) field (Py.str n))
  = Some (n, Redis.hset r (conversation_key sid) field (Py.str n)).
Proof.
  apply hget_int_is. now rewrite hget_hset_eq, or_else_str, int_str.
Qed.

Lemma update_state_is sid st r :
  update_state utcnow sid st r =
  Some (tt, Redis.hset (Redis.hset r (conversation_key sid) "state" (value st))
              (conversation_key sid) "updated_at" utcnow).
Proof. reflexivity. Qed.

Lemma state_after_update sid st r :
  Redis.hget
    (Redis.hset (Redis.hset r (conversation_key sid) "state" (value st))
       (conversation_key sid) "updated_at" utcnow)
    (conversation_key sid) "state" = Some (value st).
Proof. rewrite hget_hset_ne by discriminate. apply hget_hset_eq. Qed.

(** C3, as amended: in state RESPONDING, [process_state_transition] adds one
    to [turn_count]; if the new count is at least [max_turns] the state
    becomes END, [should_end] is true and the line returned is "Thank you for
    the conversation. Have a great day!"; otherwise the state becomes
    LISTENING and the response is empty. *)
Theorem responding_step sid user_text r n :
  Redis.hget r (conversation_key sid) "state" = Some "RESPONDING" ->
  Py.int (Py.or_else (Redis.hget r (conversation_key sid) "turn_count") "0")
  = Some n ->
  exists r',
    step sid user_text r =
    Some (if n + 1 >=? max_turns self
          then (END, "Thank you for the conversation. Have a great day!", true)
          else (LISTENING, "", false), r') /\
    Redis.hget r' (conversation_key sid) "turn_count" = Some (Py.str (n + 1)) /\
    Redis.hget r' (conversation_key sid) "state"
    = Some (if n + 1 >=? max_turns self then "END" else "LISTENING").
Proof.
  intros Hst Hn. unfold process_state_transition.
  unfold Store.bind at 1. rewrite (get_state_is sid r RESPONDING Hst).
  unfold Store.bind at 1. cbn [Store.ret].
  unfold Store.bind at 1. unfold increment_turn at 1.
  unfold Store.bind at 1. rewrite (hget_int_is _ _ _ _ Hn).
  cbn [Store.hset].
  unfold Store.bind at 1. rewrite hget_int_after_hset.
  destruct (n + 1 >=? max_turns self).
  - unfold Store.bind. rewrite update_state_is. cbn [Store.ret].
    eexists. split; [reflexivity|]. split.
    + rewrite !hget_hset_ne by discriminate. apply hget_hset_eq.
    + apply (state_after_update sid END).
  - unfold Store.bind. rewrite update_state_is. cbn [Store.ret].
    eexists. split; [reflexivity|]. split.
    + rewrite !hget_hset_ne by discriminate. apply hget_hset_eq.
    + apply (state_after_update sid LISTENING).
Qed.

(** One call in LISTENING with no user text, the silence counter reading
    [n] before the call. *)
Lemma listening_blank_step sid user_text r n :
  Redis.hget r (conversation_key sid) "state" = Some "LISTENING" ->
  is_blank user_text = true ->
  Py.int
    (Py.or_else (Redis.hget r (conversation_key sid) "silence_prompts") "0")
  = Some n ->
  let r1 :=
    Redis.hset r (conversation_key sid) "silence_prompts" (Py.str (n + 1)) in
  step sid user_text r =
  if n >=? max_silence_prompts self
  then Some ((END, "Thank you for calling. Have a great day!", true),
             Redis.hset (Redis.hset r1 (conversation_key sid) "state" "END")
               (conversation_key sid) "updated_at" utcnow)
  else Some ((LISTENING,
              if n + 1 =? 0 then "I'm listening. Please go ahead and speak."
              else if n + 1 =? 1
              then "I'm still here. Please tell me how I can help you."
              else "I didn't hear anything. If you need assistance, please speak now or I'll end this call.",
              false), r1).
Proof.
  intros Hst Hblank Hn. cbn zeta. unfold process_state_transition.
  unfold Store.bind at 1. rewrite (get_state_is sid r LISTENING Hst).
  unfold Store.bind at 1. cbn [Store.ret]. rewrite Hblank.
  unfold Store.bind at 1. rewrite (hget_int_is _ _ _ _ Hn).
  unfold Store.bind at 1. unfold increment_silence_prompt at 1.
  unfold Store.bind at 1. rewrite (hget_int_is _ _ _ _ Hn).
  cbn [Store.hset].
  destruct (n >=? max_silence_prompts self).
  - unfold Store.bind. rewrite update_state_is. reflexivity.
  - unfold Store.bind at 1. unfold get_silence_prompt.
    unfold Store.bind at 1. rewrite hget_int_after_hset.
    destruct (n + 1 =? 0); [reflexivity|].
    destruct (n + 1 =? 1); reflexivity.
Qed.

(** C7: from LISTENING with a silence counter of zero and
    [max_silence_prompts = 2], three calls without user text: the first two
    stay in LISTENING and return a silence prompt, the third moves to END and
    returns the closing line with [should_end] true. *)
Theorem three_silent_calls_end_conversation sid t1 t2 t3 r :
  max_silence_prompts self = 2 ->
  is_blank t1 = true -> is_blank t2 = true -> is_blank t3 = true ->
  Redis.hget r (conversation_key sid) "state" = Some "LISTENING" ->
  Py.int
    (Py.or_else (Redis.hget r (conversation_key sid) "silence_prompts") "0")
  = Some 0 ->
  exists r1 r2 r3,
    step sid t1 r =
    Some ((LISTENING, "I'm still here. Please tell me how I can help you.",
           false), r1) /\
    Redis.hget r1 (conversation_key sid) "state" = Some "LISTENING" /\
    step sid t2 r1 =
    Some ((LISTENING,
           "I didn't hear anything. If you need assistance, please speak now or I'll end this call.",
           false), r2) /\
    Redis.hget r2 (conversation_key sid) "state" = Some "LISTENING" /\
    step sid t3 r2 =
    Some ((END, "Thank you for calling. Have a great day!", true), r3) /\
    Redis.hget r3 (conversation_key sid) "state" = Some "END".
Proof.
  intros Hmax H1 H2 H3 Hst Hn.
  set (key := conversation_key sid).
  set (r1 := Redis.hset r key "silence_prompts" (Py.str 1)).
  set (r2 := Redis.hset r1 key "silence_prompts" (Py.str 2)).
  assert (Hst1 : Redis.hget r1 key "state" = Some "LISTENING")
    by (subst r1; now rewrite hget_hset_ne by discriminate).
  assert (Hst2 : Redis.hget r2 key "state" = Some "LISTENING")
    by (subst r2; now rewrite hget_hset_ne by discriminate).
  assert (Hn1 : Py.int (Py.or_else (Redis.hget r1 key "silence_prompts") "0")
                = Some 1)
    by (subst r1; now rewrite hget_hset_eq).
  assert (Hn2 : Py.int (Py.or_else (Redis.hget r2 key "silence_prompts") "0")
                = Some 2)
    by (subst r2; now rewrite hget_hset_eq).
  exists r1, r2. eexists.
  rewrite (listening_blank_step sid t1 r 0 Hst H1 Hn).
  rewrite (listening_blank_step sid t2 r1 1 Hst1 H2 Hn1).
  rewrite (listening_blank_step sid t3 r2 2 Hst2 H3 Hn2).
  rewrite Hmax. cbn zeta. simpl Z.geb. simpl Z.eqb. cbv iota.
  repeat split; try assumption.
  apply (state_after_update sid END).
Qed.

End ConversationProperties.

(** ** The conversation engine on concrete stores *)

Section ConversationRuns.
Import ConversationEngine Scenario.

Local Open Scope string_scope.

Local Abbreviation step := (process_state_transition clock no_model new).

(** C3, counterexample: in RESPONDING with [turn_count = 19] and the default
    [max_turns = 20], the call ends the conversation, but the line returned
    is not "Thank you for calling. Have a great day!". *)
Lemma responding_closing_line_is_not_the_calling_line :
  fst <$> step "s1" None responding_store
  = Some (END, "Thank you for the conversation. Have a great day!", true) /\
  fst <$> step "s1" None responding_store
  <> Some (END, "Thank you for calling. Have a great day!", true).
Proof. split; [vm_compute; reflexivity | vm_compute; discriminate]. Qed.

(** The twentieth turn of session [s1]. *)
Lemma responding_step_witness :
  exists r',
    step "s1" None responding_store =
    Some ((END, "Thank you for the conversation. Have a great day!", true),
          r') /\
    Redis.hget r' "conversation:s1" "turn_count" = Some "20" /\
    Redis.hget r' "conversation:s1" "state" = Some "END".
Proof.
  apply (responding_step clock no_model new "s1" None responding_store 19).
  - vm_compute. reflexivity.
  - vm_compute. reflexivity.
Defined.

(** Session [s1] receives no text, an empty text and a blank text. *)
Lemma three_silent_calls_end_conversation_witness :
  exists r1 r2 r3,
    step "s1" None listening_store =
    Some ((LISTENING, "I'm still here. Please tell me how I can help you.",
           false), r1) /\
    Redis.hget r1 "conversation:s1" "state" = Some "LISTENING" /\
    step "s1" (Some "") r1 =
    Some ((LISTENING,
           "I didn't hear anything. If you need assistance, please speak now or I'll end this call.",
           false), r2) /\
    Redis.hget r2 "conversation:s1" "state" = Some "LISTENING" /\
    step "s1" (Some "  ") r2 =
    Some ((END, "Thank you for calling. Have a great day!", true), r3) /\
    Redis.hget r3 "conversation:s1" "state" = Some "END".
Proof.
  apply (three_silent_calls_end_conversation clock no_model new "s1"
           None (Some "") (Some "  ") listening_store).
  - reflexivity.
  - reflexivity.
  - reflexivity.
  - vm_compute. reflexivity.
  - vm_compute. reflexivity.
  - vm_compute. reflexivity.
Defined.

End ConversationRuns.

(** * Further properties of the turn-taking engine *)

Section TurnTakingMore.
Import TurnTaking Driver.

Variable vad_probability : bytes -> Q.

Local Abbreviation process := (process_chunk vad_probability).
Local Abbreviation cls := (classify vad_probability).
Local Abbreviation exec := (call vad_probability).
Local Abbreviation runs := (run vad_probability).

Ltac zcmp :=
  repeat match goal with
  | H : (_ >=? _) = true |- _ => rewrite Z.geb_leb in H; apply Z.leb_le in H
  | H : (_ >=? _) = false |- _ => rewrite Z.geb_leb in H; apply Z.leb_gt in H
  | H : (_ <? _) = true |- _ => apply Z.ltb_lt in H
  | H : (_ <? _) = false |- _ => apply Z.ltb_ge in H
  end.

Ltac in_state :=
  repeat match goal with
  | H : ?x = ?x -> _ |- _ => specialize (H eq_refl)
  | H : ?x = ?y -> _ |- _ => clear H; assert_fails (unify x y)
  | H : _ /\ _ |- _ => destruct H
  end.

Lemma len_app {A} (l1 l2 : list A) : len (l1 ++ l2) = len l1 + len l2.
Proof. unfold len. rewrite length_app. lia. Qed.

Lemma classified_is_frame pcm v : cls pcm = Some v -> FRAME_BYTES <= len pcm.
Proof.
  unfold classify. destruct (len pcm <? FRAME_BYTES) eqn:H; [discriminate|].
  intros _. now apply Z.ltb_ge.
Qed.

(** X1: a chunk shorter than one frame (the empty chunk included) returns no
    event and leaves the state and the counters alone; it is appended to the
    buffer exactly when the engine is LISTENING or CANDIDATE_END. *)
Theorem short_chunk_only_buffers e pcm :
  len pcm < FRAME_BYTES ->
  let e' := fst (process_chunk vad_probability e pcm) in
  snd (process_chunk vad_probability e pcm) = None /\
  state e' = state e /\
  silence_chunks e' = silence_chunks e /\
  speech_chunks e' = speech_chunks e /\
  idle_silence_chunks e' = idle_silence_chunks e /\
  buffer e' =
    (if bool_decide (state e = LISTENING \/ state e = CANDIDATE_END)
     then buffer e ++ pcm else buffer e).
Proof.
  intros Hlen. apply Z.ltb_lt in Hlen. cbn zeta. unfold process_chunk.
  destruct pcm as [|x l].
  - rewrite app_nil_r. destruct (bool_decide _); repeat split.
  - rewrite Hlen. destruct (decide _) as [H|H].
    + rewrite (bool_decide_eq_true_2 _ H). destruct e; repeat split.
    + rewrite (bool_decide_eq_false_2 _ H). repeat split.
Qed.

(** What an unclassified chunk does, exactly. *)
Lemma process_unclassified_exact e pcm :
  cls pcm = None ->
  process e pcm =
  (if decide (state e = LISTENING \/ state e = CANDIDATE_END)
   then set_buffer (buffer e ++ pcm) e else e, None).
Proof.
  intros Hc. unfold process_chunk.
  destruct pcm as [|x l].
  - rewrite app_nil_r. destruct (decide _); [|reflexivity]. now destruct e.
  - destruct (len (x :: l) <? FRAME_BYTES) eqn:Hlen.
    + now destruct (decide _).
    + unfold classify in Hc. rewrite Hlen in Hc. rewrite Hc.
      assert (Hq : Qgeb (vad_probability (x :: l)) 0.1 = false).
      { unfold has_voice_uncertain in Hc.
        destruct (Qgeb (vad_probability (x :: l)) 0.1);
          [discriminate | reflexivity]. }
      rewrite Hq, andb_false_r. now destruct (decide _).
Qed.

Lemma buffer_ok_step e0 e c :
  buffer_ok e0 e -> buffer_ok e0 (fst (exec e c)).
Proof.
  intros (Hth & Hsil & Hsp & Hb & Hi & Hl & Hc).
  destruct c as [pcm| |]; simpl.
  - destruct (cls pcm) as [v|] eqn:Hv.
    + pose proof (classified_is_frame _ _ Hv) as Hf.
      rewrite (process_classified _ _ _ _ Hv).
      destruct e as [cm st buf sil spc idl csf g cf mn nd iw cw bf].
      unfold buffer_ok, same_thresholds in *; simpl in *.
      change FRAME_BYTES with 640 in *.
      destruct st, v; simpl;
        repeat match goal with
        | |- context [if ?b then _ else _] => destruct b eqn:?; simpl
        end; zcmp; in_state; subst; rewrite ?len_app;
        repeat split; intros; try discriminate; try reflexivity;
        try (unfold len in *; simpl in *; lia).
    + rewrite (process_unclassified_exact _ _ Hv).
      destruct e as [cm st buf sil spc idl csf g cf mn nd iw cw bf].
      unfold buffer_ok, same_thresholds in *; simpl in *.
      change FRAME_BYTES with 640 in *.
      destruct (decide _) as [[-> | ->]|Hn]; [| |destruct st]; simpl;
        in_state; rewrite ?len_app;
        repeat split; intros; try discriminate; try assumption;
        try (unfold len in *; simpl in *; lia).
  - destruct e; unfold buffer_ok, same_thresholds in *; simpl in *.
    in_state. repeat split; intros; try discriminate; try assumption; try lia.
  - destruct e; unfold buffer_ok, same_thresholds in *; simpl in *.
    repeat split; intros; try discriminate; try tauto; try lia.
Qed.

Lemma buffer_ok_init chunk config e0 :
  init chunk config = Some e0 -> buffer_ok e0 e0.
Proof.
  unfold init. destruct (decide _); [discriminate|]. intros [= <-].
  unfold buffer_ok, same_thresholds; simpl.
  repeat split; intros; try discriminate; try reflexivity; lia.
Qed.

Lemma buffer_ok_run e0 cs :
  buffer_ok e0 e0 -> buffer_ok e0 (fst (runs e0 cs)).
Proof.
  intros H0. induction cs as [|c cs IH] using rev_ind; [exact H0|].
  rewrite run_snoc. now apply buffer_ok_step.
Qed.

(** X2: the audio handed over with a TURN_END is never short: the buffer of
    the event holds at least [min_speech_chunks + silence_grace_chunks +
    confirmation_chunks] frames of 640 bytes. *)
Theorem turn_end_buffer_size chunk config e0 cs pcm e' ev :
  init chunk config = Some e0 ->
  process_chunk vad_probability (fst (run vad_probability e0 cs)) pcm
  = (e', Some ev) ->
  type ev = TURN_END ->
  exists b,
    ev_buffer ev = Some b /\
    FRAME_BYTES *
      (_min_speech_chunks e0 + _silence_grace_chunks e0
       + _confirmation_chunks e0)
    <= len b.
Proof.
  intros Hinit Hp Ht.
  pose proof (counters_ok_run vad_probability e0 cs
                (counters_ok_init _ _ _ Hinit)) as (Hth & _ & Hc & _).
  pose proof (buffer_ok_run e0 cs (buffer_ok_init _ _ _ Hinit))
    as (_ & Hsil & Hsp & _ & _ & _ & Hb).
  destruct (turn_end_source _ _ _ _ _ Hp Ht) as (Hv & Hst & _ & Hconf & ->).
  pose proof (classified_is_frame _ _ Hv) as Hf.
  destruct (Hc Hst) as [_ Hmin]. specialize (Hb Hst).
  destruct Hth as (_ & Hcf & _).
  eexists. split; [reflexivity|]. rewrite len_app.
  change FRAME_BYTES with 640 in *. lia.
Qed.

(** X3: whenever the engine is IDLE it holds no audio: the buffer is empty
    and the speech and silence counters are zero. *)
Theorem idle_engine_holds_no_audio chunk config e0 cs :
  init chunk config = Some e0 ->
  let e := fst (run vad_probability e0 cs) in
  state e = IDLE ->
  buffer e = [] /\ speech_chunks e = 0 /\ silence_chunks e = 0.
Proof.
  intros Hinit e Hst.
  pose proof (buffer_ok_run e0 cs (buffer_ok_init _ _ _ Hinit))
    as (_ & _ & _ & _ & Hi & _).
  exact (Hi Hst).
Qed.

(** The event returned by the [i]-th silent chunk (counting from zero) when
    the idle counter stood at [k] before the first one. *)
Lemma idle_silence_events chunks : forall e k,
  state e = IDLE ->
  idle_silence_chunks e = k ->
  0 <= k < _nudge_chunks e ->
  Forall (fun c => cls c = Some false) chunks ->
  snd (runs e (map Chunk chunks))
  = map (fun i =>
           if (k + Z.of_nat (S i)) mod _nudge_chunks e =? 0
           then Some (mkTurnEvent NUDGE None) else None)
        (seq 0 (length chunks)) /\
  state (fst (runs e (map Chunk chunks))) = IDLE.
Proof.
  induction chunks as [|c chunks IH]; intros e k Hst Hk Hrange Hall.
  - split; [reflexivity | exact Hst].
  - inversion Hall as [|? ? Hc Hrest]; subst.
    rewrite map_cons, run_cons_snd, run_cons_fst. cbn [call].
    rewrite (process_classified _ _ _ _ Hc), Hst.
    set (n := _nudge_chunks e) in *.
    assert (Hstep :
      exists e1,
        (let e' := set_idle_silence_chunks (idle_silence_chunks e + 1) e in
         if idle_silence_chunks e' >=? _nudge_chunks e'
         then (set_idle_silence_chunks 0 e', Some (mkTurnEvent NUDGE None))
         else (e', None))
        = (e1, if (idle_silence_chunks e + 1) mod n =? 0
               then Some (mkTurnEvent NUDGE None) else None) /\
        state e1 = IDLE /\ _nudge_chunks e1 = n /\
        idle_silence_chunks e1 = (idle_silence_chunks e + 1) mod n).
    { subst n.
      destruct e as [cm st buf sil spc idl csf g cf mn nd iw cw bf].
      simpl in *. subst st.
      destruct (idl + 1 >=? nd) eqn:Hge; zcmp.
      - assert (idl + 1 = nd) as <- by lia.
        rewrite Z.mod_same by lia. simpl.
        eexists. split; [reflexivity|]. simpl. auto.
      - rewrite Z.mod_small by lia.
        destruct (idl + 1 =? 0) eqn:H0; [apply Z.eqb_eq in H0; lia|].
        eexists. split; [reflexivity|]. simpl. auto. }
    destruct Hstep as (e1 & -> & Hst1 & Hn1 & Hk1). cbn [fst snd].
    destruct (IH e1 _ Hst1 eq_refl) as [Hev Hfin].
    { rewrite Hk1, Hn1. apply Z.mod_pos_bound. lia. }
    { exact Hrest. }
    split; [|exact Hfin].
    rewrite Hev. cbn [length seq map]. f_equal.
    rewrite <- seq_shift, map_map. apply map_ext. intros i.
    rewrite Hn1, Hk1.
    replace (idle_silence_chunks e + Z.of_nat (S (S i)))
      with ((idle_silence_chunks e + 1) + Z.of_nat (S i)) by lia.
    now rewrite Z.add_mod_idemp_l by lia.
Qed.

(** X4: fed nothing but silence, a freshly constructed engine stays IDLE and
    returns NUDGE on every [nudge_chunks]-th chunk, and nothing in between. *)
Theorem nudge_every_nudge_chunks chunk config e0 chunks :
  init chunk config = Some e0 ->
  Forall (fun c => classify vad_probability c = Some false) chunks ->
  snd (run vad_probability e0 (map Chunk chunks))
  = map (fun i =>
           if Z.of_nat (S i) mod _nudge_chunks e0 =? 0
           then Some (mkTurnEvent NUDGE None) else None)
        (seq 0 (length chunks)) /\
  state (fst (run vad_probability e0 (map Chunk chunks))) = IDLE.
Proof.
  intros Hinit Hall.
  assert (H0 : state e0 = IDLE /\ idle_silence_chunks e0 = 0 /\
               1 <= _nudge_chunks e0).
  { unfold init in Hinit. destruct (decide _); [discriminate|].
    injection Hinit as <-. simpl. unfold chunks_of_ms.
    repeat split. lia. }
  destruct H0 as (Hst & Hk & Hn).
  destruct (idle_silence_events chunks e0 0 Hst Hk ltac:(lia) Hall)
    as [Hev Hfin].
  split; [|exact Hfin]. rewrite Hev. apply map_ext. intros i.
  now rewrite Z.add_0_l.
Qed.

End TurnTakingMore.

(** ** The engine on concrete runs, continued *)

Section TurnTakingMoreRuns.
Import TurnTaking Driver.

Local Abbreviation V := energy_probability.

(** A ten-byte chunk while the engine waits for the end of the turn. *)
Lemma short_chunk_only_buffers_witness :
  let r := process_chunk V before_turn_end short_chunk in
  snd r = None /\
  state (fst r) = state before_turn_end /\
  silence_chunks (fst r) = silence_chunks before_turn_end /\
  speech_chunks (fst r) = speech_chunks before_turn_end /\
  idle_silence_chunks (fst r) = idle_silence_chunks before_turn_end /\
  buffer (fst r) = buffer before_turn_end ++ short_chunk.
Proof.
  apply (short_chunk_only_buffers V before_turn_end short_chunk).
  vm_compute. reflexivity.
Defined.

(** The default engine on the utterance and a seventh silent frame: the
    audio handed over has at least nine frames. *)
Lemma turn_end_buffer_size_witness :
  exists e' ev b,
    process_chunk V before_turn_end silent_frame = (e', Some ev) /\
    ev_buffer ev = Some b /\ FRAME_BYTES * (2 + 5 + 2) <= len b.
Proof.
  pose (r := process_chunk V before_turn_end silent_frame).
  exists (fst r), (default (mkTurnEvent NUDGE None) (snd r)).
  destruct (turn_end_buffer_size V CHUNK_MS ∅ default_engine utterance
              silent_frame (fst r)
              (default (mkTurnEvent NUDGE None) (snd r)))
    as (b & Hb & Hlen).
  - vm_compute. reflexivity.
  - vm_compute. reflexivity.
  - vm_compute. reflexivity.
  - exists b. split; [vm_compute; reflexivity|]. split; [exact Hb|exact Hlen].
Defined.

(** The default engine after a whole turn has been finalized. *)
Lemma idle_engine_holds_no_audio_witness :
  let e := fst (run V default_engine
                  (utterance ++ [Chunk silent_frame; FinalizeTurn])) in
  buffer e = [] /\ speech_chunks e = 0 /\ silence_chunks e = 0.
Proof.
  apply (idle_engine_holds_no_audio V CHUNK_MS ∅ default_engine
           (utterance ++ [Chunk silent_frame; FinalizeTurn])).
  - vm_compute. reflexivity.
  - vm_compute. reflexivity.
Defined.

(** Nine silent frames from the start: one NUDGE, on the eighth. *)
Lemma nudge_every_nudge_chunks_witness :
  snd (run V default_engine (map Chunk (repeat silent_frame 9)))
  = map (fun i : nat =>
           if Z.of_nat (S i) mod 8 =? 0
           then Some (mkTurnEvent NUDGE None) else None)
      (seq 0 9) /\
  state (fst (run V default_engine (map Chunk (repeat silent_frame 9))))
  = IDLE.
Proof.
  apply (nudge_every_nudge_chunks V CHUNK_MS ∅ default_engine
           (repeat silent_frame 9)).
  - vm_compute. reflexivity.
  - repeat constructor.
Defined.

End TurnTakingMoreRuns.

(** * Further properties of barge-in *)

Section BargeInMore.
Import TurnTaking Driver Orchestrator.

Variable vad_probability : bytes -> Q.

(** X5: while the bot is speaking, a frame below 0.6 that arrives before the
    end of the playback is dropped: nothing is sent, no event is returned and
    the engine keeps its state, buffer and counters.  Once the playback is
    over, such a frame clears [bot_speaking] and is handed to the engine. *)
Theorem quiet_frame_while_bot_speaks now s frame :
  bot_speaking s = true ->
  (vad_probability frame < 0.6)%Q ->
  let r := on_frame vad_probability now s frame in
  let e := turn_engine s in
  let e' := turn_engine (fst (fst r)) in
  snd (fst r) = [] /\
  ((now <= bot_speaking_until s)%Q ->
     snd r = None /\ bot_speaking (fst (fst r)) = true /\
     state e' = state e /\ buffer e' = buffer e /\
     speech_chunks e' = speech_chunks e /\
     silence_chunks e' = silence_chunks e /\
     idle_silence_chunks e' = idle_silence_chunks e) /\
  (~ (now <= bot_speaking_until s)%Q ->
     bot_speaking (fst (fst r)) = false /\
     exists e1,
       state e1 = state e /\ buffer e1 = buffer e /\
       speech_chunks e1 = speech_chunks e /\
       silence_chunks e1 = silence_chunks e /\
       idle_silence_chunks e1 = idle_silence_chunks e /\
       (e', snd r) = process_chunk vad_probability e1 frame).
Proof.
  intros Hb Hq. cbn zeta.
  split; [now apply quiet_frame_while_speaking|].
  unfold on_frame, barge_in_check. rewrite Hb.
  destruct (Qgeb_spec (vad_probability frame) 0.6) as [Hge|_];
    [exfalso; lra|].
  destruct s as [b u e]. simpl in Hb. subst b.
  cbn [turn_engine bot_speaking_until set_turn_engine].
  pose proof (Qle_bool_iff now u) as Hle.
  destruct (Qle_bool now u).
  - split; [intros _ | intros Hn; exfalso; apply Hn; now apply Hle].
    simpl. destruct e as [? ? ? ? ? ? ? ? ? ? ? ? ? [n|]]; repeat split.
  - split; [intros Hn; apply Hle in Hn; discriminate | intros _].
    destruct e as [? ? ? ? ? ? ? ? ? ? ? ? ? [n|]]; simpl;
      destruct (process_chunk vad_probability _ frame) as [e2 ev2] eqn:Hp;
      simpl; (split; [reflexivity|]);
      match type of Hp with
      | process_chunk _ ?e1 _ = _ => exists e1
      end; repeat split; now rewrite <- Hp.
Qed.

(** X6: a [barge_in] message is sent only when the bot is speaking, the frame
    is at or above 0.6 and an earlier frame has already been counted; it
    clears [bot_speaking] and is the only message sent for the frame. *)
Theorem barge_in_only_on_second_loud_frame now s frame :
  In barge_in_message (snd (fst (on_frame vad_probability now s frame))) ->
  bot_speaking s = true /\
  (0.6 <= vad_probability frame)%Q /\
  (exists n, _barge_in_frames (turn_engine s) = Some n /\ 1 <= n) /\
  snd (fst (on_frame vad_probability now s frame)) = [barge_in_message] /\
  bot_speaking (fst (fst (on_frame vad_probability now s frame))) = false.
Proof.
  intros Hin.
  destruct (bot_speaking s) eqn:Hb.
  - destruct (Qgeb_spec (vad_probability frame) 0.6) as [Hge|Hlt].
    + pose proof (loud_frame_while_speaking vad_probability now s frame Hb Hge)
        as [_ H]. cbn zeta in H.
      destruct (default 0 (_barge_in_frames (turn_engine s)) + 1 >=? 2)
        eqn:Hcnt.
      * destruct H as [Hsent Hoff].
        split; [reflexivity|]. split; [assumption|].
        split; [|now split].
        rewrite Z.geb_leb in Hcnt. apply Z.leb_le in Hcnt.
        destruct (_barge_in_frames (turn_engine s)) as [n|]; simpl in Hcnt;
          [exists n; split; [reflexivity | lia] | lia].
      * destruct H as [Hsent _]. rewrite Hsent in Hin. destruct Hin.
    + rewrite quiet_frame_while_speaking in Hin by lra. destruct Hin.
  - unfold on_frame, barge_in_check in Hin. rewrite Hb in Hin.
    destruct (process_chunk _ _ frame); destruct Hin.
Qed.

End BargeInMore.

Section BargeInMoreRuns.
Import TurnTaking Driver Orchestrator.

Local Abbreviation V := energy_probability.

(** The bot is speaking until second 5; a silent frame arrives at second 1. *)
Lemma quiet_frame_while_bot_speaks_witness :
  let r := on_frame V 1 (mkLoop true 5 default_engine) silent_frame in
  snd (fst r) = [] /\ snd r = None /\ bot_speaking (fst (fst r)) = true.
Proof.
  destruct (quiet_frame_while_bot_speaks V 1 (mkLoop true 5 default_engine)
              silent_frame) as (Hm & Hin & _).
  - reflexivity.
  - vm_compute. reflexivity.
  - destruct Hin as (He & Hb & _); [vm_compute; discriminate|].
    split; [exact Hm|]. split; [exact He|exact Hb].
Defined.

(** The bot is speaking and a loud frame has just been counted; a second
    loud frame arrives. *)
Lemma barge_in_only_on_second_loud_frame_witness :
  let s1 := fst (fst (on_frame V 1 (mkLoop true 5 default_engine)
                        loud_frame)) in
  bot_speaking s1 = true /\
  (0.6 <= V loud_frame)%Q /\
  (exists n, _barge_in_frames (turn_engine s1) = Some n /\ 1 <= n) /\
  snd (fst (on_frame V 2 s1 loud_frame)) = [barge_in_message] /\
  bot_speaking (fst (fst (on_frame V 2 s1 loud_frame))) = false.
Proof.
  apply (barge_in_only_on_second_loud_frame V 2
           (fst (fst (on_frame V 1 (mkLoop true 5 default_engine)
                        loud_frame)))
           loud_frame).
  vm_compute. left. reflexivity.
Defined.

End BargeInMoreRuns.

(** * Further properties of the conversation engine *)

Section ConversationMore.
Import ConversationEngine.

Local Open Scope string_scope.
Local Open Scope Z_scope.

Variable utcnow : string.
Variable quality_completion : string -> option string.
Variable self : ConversationEngine.

Local Abbreviation step :=
  (process_state_transition utcnow quality_completion self).
Local Abbreviation key := conversation_key.

(** X7: ERROR and END are terminal.  From either, a call returns
    [(END, "", True)] whatever the user text; from END the store is not
    written at all, so every later call does the same. *)
Theorem terminal_states_end_the_conversation sid user_text r st :
  Redis.hget r (conversation_key sid) "state" = Some (value st) ->
  st = ERROR \/ st = END ->
  exists r',
    process_state_transition utcnow quality_completion self sid user_text r
    = Some ((END, "", true), r') /\
    Redis.hget r' (conversation_key sid) "state" = Some "END" /\
    (st = END -> r' = r).
Proof.
  intros Hst Hterm. unfold process_state_transition.
  unfold Store.bind at 1. rewrite (get_state_is sid r st Hst).
  unfold Store.bind at 1. cbn [Store.ret].
  destruct Hterm as [-> | ->].
  - unfold Store.bind. rewrite update_state_is. cbn [Store.ret].
    eexists. split; [reflexivity|]. split.
    + apply (state_after_update utcnow sid END).
    + discriminate.
  - exists r. cbn [Store.ret]. repeat split. exact Hst.
Qed.

(** X8: a session whose state field is missing, empty or not the name of a
    state is started afresh: the call rewrites the row with all three
    counters at "0", moves to GREETING and returns the greeting. *)
Theorem unknown_state_restarts_the_conversation sid user_text r :
  Redis.hget r (conversation_key sid) "state" ≫= of_value = None ->
  exists r',
    process_state_transition utcnow quality_completion self sid user_text r
    = Some ((GREETING,
             "Hello! Welcome to SmileCare Dental Clinic. How can I help you today?",
             false), r') /\
    Redis.hget r' (conversation_key sid) "state" = Some "GREETING" /\
    Redis.hget r' (conversation_key sid) "turn_count" = Some "0" /\
    Redis.hget r' (conversation_key sid) "clarification_count" = Some "0" /\
    Redis.hget r' (conversation_key sid) "silence_prompts" = Some "0" /\
    Redis.hget r' (conversation_key sid) "last_user_input" = Some "".
Proof.
  intros Hst. unfold process_state_transition.
  assert (Hget : get_state sid r = Some (None, r)).
  { unfold get_state, Store.bind, Store.hget, Store.ret.
    destruct (Redis.hget r (conversation_key sid) "state") as [[|c s]|];
      simpl in *; try reflexivity. now rewrite Hst. }
  unfold Store.bind at 1. rewrite Hget.
  unfold Store.bind at 1. unfold Store.bind at 1.
  unfold initialize, Store.bind, Store.hset_mapping, Store.ret, update_state,
    Store.hset.
  eexists. split; [reflexivity|].
  unfold Redis.hset_mapping. simpl foldl.
  repeat split;
    repeat first [ rewrite hget_hset_eq; reflexivity
                 | rewrite hget_hset_ne by discriminate ].
Qed.



Lemma contains_tail sub c s :
  Py.contains sub s = true -> Py.contains sub (String c s) = true.
Proof. intros H. cbn [Py.contains]. rewrite H. apply orb_true_r. Qed.

Lemma prefix_cons_inv c sub s :
  String.prefix (String c sub) s = true ->
  exists s', s = String c s' /\ String.prefix sub s' = true.
Proof.
  destruct s as [|c' s']; [discriminate|]. cbn [String.prefix].
  destruct (Ascii.ascii_dec c c') as [->|]; [|discriminate]. eauto.
Qed.

(** Wherever "UNCLEAR" occurs, "CLEAR" occurs two characters later. *)
Lemma unclear_contains_clear s :
  Py.contains "UNCLEAR" s = true -> Py.contains "CLEAR" s = true.
Proof.
  induction s as [|c s IH]; [discriminate|].
  cbn [Py.contains]. intros H. apply orb_true_iff in H as [H|H].
  - apply prefix_cons_inv in H as (s1 & Heq & H).
    injection Heq as -> ->.
    apply prefix_cons_inv in H as (s2 & -> & H).
    apply orb_true_iff. right. apply contains_tail.
    destruct s2; cbn [Py.contains]; rewrite H; reflexivity.
  - apply orb_true_iff. right. auto.
Qed.

(** X10: the language model cannot make [analyze_input_quality] answer
    UNCLEAR by replying "UNCLEAR": the reply is searched for "CLEAR", which
    "UNCLEAR" contains, so a text of three characters or more is then judged
    CLEAR. *)
Theorem unclear_reply_is_read_as_clear user_text sid content :
  3 <= Py.slen (Py.strip user_text) ->
  quality_completion user_text = Some content ->
  Py.contains "UNCLEAR" (Py.upper (Py.strip content)) = true ->
  analyze_input_quality quality_completion user_text sid = CLEAR.
Proof.
  intros Hlen Hq Hc. unfold analyze_input_quality.
  assert (Hne : user_text <> "").
  { intros ->. change (Py.slen (Py.strip "")) with 0 in Hlen. lia. }
  destruct user_text as [|c t]; [congruence|]. cbn [Py.truthy negb orb].
  destruct (Py.slen (Py.strip (String c t)) =? 0) eqn:H0;
    [apply Z.eqb_eq in H0; lia|].
  destruct (Py.slen (Py.strip (String c t)) <? 3) eqn:H3;
    [apply Z.ltb_lt in H3; lia|].
  rewrite Hq. now rewrite (unclear_contains_clear _ Hc).
Qed.

Lemma listening_text_step sid user_text r :
  Redis.hget r (key sid) "state" = Some "LISTENING" ->
  is_blank user_text = false ->
  step sid user_text r =
  Some ((PROCESSING, "", false),
        Redis.hset
          (Redis.hset
             (Redis.hset r (key sid) "last_user_input"
                (Py.or_else user_text ""))
             (key sid) "state" "PROCESSING")
          (key sid) "updated_at" utcnow).
Proof.
  intros Hst Hblank. unfold process_state_transition.
  unfold Store.bind at 1. rewrite (get_state_is sid r LISTENING Hst).
  unfold Store.bind at 1. cbn [Store.ret]. rewrite Hblank.
  reflexivity.
Qed.

Lemma processing_clear_step sid user_text r :
  Redis.hget r (key sid) "state" = Some "PROCESSING" ->
  analyze_input_quality quality_completion (Py.or_else user_text "") sid
  = CLEAR ->
  step sid user_text r =
  Some ((RESPONDING, "", false),
        Redis.hset (Redis.hset r (key sid) "state" "RESPONDING")
          (key sid) "updated_at" utcnow).
Proof.
  intros Hst Hq. unfold process_state_transition.
  unfold Store.bind at 1. rewrite (get_state_is sid r PROCESSING Hst).
  unfold Store.bind at 1. cbn [Store.ret]. rewrite Hq.
  reflexivity.
Qed.

Lemma responding_continue_step sid user_text r n :
  Redis.hget r (key sid) "state" = Some "RESPONDING" ->
  Counters.read r sid "turn_count" = Some n ->
  n + 1 < max_turns self ->
  step sid user_text r =
  Some ((LISTENING, "", false),
        Redis.hset
          (Redis.hset
             (Redis.hset r (key sid) "turn_count" (Py.str (n + 1)))
             (key sid) "state" "LISTENING")
          (key sid) "updated_at" utcnow).
Proof.
  intros Hst Hn Hlt. unfold process_state_transition.
  unfold Store.bind at 1. rewrite (get_state_is sid r RESPONDING Hst).
  unfold Store.bind at 1. cbn [Store.ret].
  unfold Store.bind at 1. unfold increment_turn at 1.
  unfold Store.bind at 1. rewrite (hget_int_is _ _ _ _ Hn).
  cbn [Store.hset].
  unfold Store.bind at 1. rewrite hget_int_after_hset.
  assert (Hge : (n + 1 >=? max_turns self) = false)
    by (rewrite Z.geb_leb; apply Z.leb_gt; lia).
  rewrite Hge. reflexivity.
Qed.

Lemma or_else_not_blank t : is_blank (Some t) = false -> Py.or_else (Some t) "" = t.
Proof. destruct t; [discriminate | reflexivity]. Qed.

(** X11: one clear utterance takes three calls.  From LISTENING a non-blank
    text is only stored and the state becomes PROCESSING; the second call
    judges the text passed to it (not the stored one) and, if that is CLEAR,
    moves to RESPONDING; the third goes back to LISTENING with [turn_count]
    one higher, the stored input still being the first text. *)
Theorem clear_utterance_takes_three_calls sid text text2 text3 r n :
  Redis.hget r (conversation_key sid) "state" = Some "LISTENING" ->
  is_blank (Some text) = false ->
  analyze_input_quality quality_completion (Py.or_else text2 "") sid = CLEAR ->
  Counters.read r sid "turn_count" = Some n ->
  n + 1 < max_turns self ->
  exists r1 r2 r3,
    process_state_transition utcnow quality_completion self sid (Some text) r
    = Some ((PROCESSING, "", false), r1) /\
    process_state_transition utcnow quality_completion self sid text2 r1
    = Some ((RESPONDING, "", false), r2) /\
    process_state_transition utcnow quality_completion self sid text3 r2
    = Some ((LISTENING, "", false), r3) /\
    Redis.hget r3 (conversation_key sid) "state" = Some "LISTENING" /\
    Redis.hget r3 (conversation_key sid) "turn_count" = Some (Py.str (n + 1)) /\
    Redis.hget r3 (conversation_key sid) "last_user_input" = Some text.
Proof.
  intros Hst Hblank Hq Hn Hlt.
  eexists _, _, _.
  split; [apply (listening_text_step sid (Some text) r Hst Hblank)|].
  split.
  { apply processing_clear_step; [|exact Hq].
    apply (state_after_update utcnow sid PROCESSING). }
  split.
  { apply (responding_continue_step sid text3 _ n); [| |exact Hlt].
    - apply (state_after_update utcnow sid RESPONDING).
    - unfold Counters.read in *.
      now rewrite !hget_hset_ne by discriminate. }
  split; [apply (state_after_update utcnow sid LISTENING)|].
  split.
  - rewrite !hget_hset_ne by discriminate. apply hget_hset_eq.
  - rewrite !hget_hset_ne by discriminate. rewrite hget_hset_eq.
    now rewrite or_else_not_blank.
Qed.

Lemma get_state_reads sid r : exists o, get_state sid r = Some (o, r).
Proof.
  unfold get_state, Store.bind, Store.hget, Store.ret.
  destruct (Py.truthy _); eauto.
Qed.

Lemma increment_clarification_is sid r n :
  Counters.read r sid "clarification_count" = Some n ->
  increment_clarification sid r =
  Some (tt, Redis.hset r (key sid) "clarification_count" (Py.str (n + 1))).
Proof.
  intros Hn. unfold increment_clarification, Store.bind.
  now rewrite (hget_int_is _ _ _ _ Hn).
Qed.

(** X12: with the default thresholds, an ASR result of confidence below 0.3
    never reaches the state machine.  Whatever the state of the conversation
    (END included), [clarification_count] goes up by one; if it has reached
    [max_clarifications] the state becomes ERROR with the escalation line and
    [should_end], otherwise CLARIFYING with "I didn't catch that clearly.
    Could you please repeat?".  The reported action is REJECT below 0.2 and
    CLARIFY from 0.2. *)
Theorem low_confidence_clarifies_or_escalates sid asr_result r n :
  confidence_router self = ConfidenceRouter.default_router ->
  let c := default 0%Q (ConfidenceRouter.asr_confidence asr_result) in
  (c < 0.3)%Q ->
  Counters.read r sid "clarification_count" = Some n ->
  exists md r',
    process_asr_result utcnow quality_completion self sid asr_result r
    = Some ((if n + 1 >=? max_clarifications self
             then (ERROR,
                   "I'm having trouble understanding you. Let me connect you to a human representative who can assist you better.",
                   true)
             else (CLARIFYING,
                   "I didn't catch that clearly. Could you please repeat?",
                   false),
             md), r') /\
    meta_action md = (if Qltb c 0.2 then "REJECT" else "CLARIFY") /\
    Redis.hget r' (conversation_key sid) "clarification_count"
    = Some (Py.str (n + 1)) /\
    Redis.hget r' (conversation_key sid) "state"
    = Some (if n + 1 >=? max_clarifications self
            then "ERROR" else "CLARIFYING").
Proof.
  intros Hrouter c Hc Hn. unfold process_asr_result.
  rewrite Hrouter. unfold ConfidenceRouter.route.
  cbn [ConfidenceRouter.high_threshold ConfidenceRouter.low_threshold
       ConfidenceRouter.default_router].
  fold c.
  destruct (Qgeb_spec c 0.8) as [H8|_]; [exfalso; lra|].
  destruct (get_state_reads sid r) as [o Ho].
  assert (Hmsg : ConfidenceRouter.get_clarification_message
                   ConfidenceRouter.default_router c
                 = "I didn't catch that clearly. Could you please repeat?").
  { unfold ConfidenceRouter.get_clarification_message.
    destruct (Qgeb_spec c 0.7); [exfalso; lra|].
    now destruct (Qgeb c 0.4). }
  unfold Qltb. fold (Qgeb c 0.2).
  destruct (Qgeb_spec c 0.2) as [H2|H2]; cbn [negb].
  - destruct (Qgeb_spec c 0.3) as [H3|_]; [exfalso; lra|].
    unfold Store.bind at 1. rewrite Ho.
    unfold Store.bind at 1. rewrite (increment_clarification_is _ _ _ Hn).
    unfold Store.bind at 1. rewrite hget_int_after_hset.
    destruct (n + 1 >=? max_clarifications self).
    + unfold Store.bind. rewrite update_state_is. cbn [Store.ret].
      eexists _, _. split; [reflexivity|]. split; [reflexivity|]. split.
      * rewrite !hget_hset_ne by discriminate. apply hget_hset_eq.
      * apply (state_after_update utcnow sid ERROR).
    + unfold Store.bind. cbn [Store.hset]. rewrite update_state_is.
      cbn [Store.ret]. rewrite Hmsg.
      eexists _, _. split; [reflexivity|]. split; [reflexivity|]. split.
      * rewrite !hget_hset_ne by discriminate. apply hget_hset_eq.
      * apply (state_after_update utcnow sid CLARIFYING).
  - unfold Store.bind at 1. rewrite Ho.
    unfold Store.bind at 1. rewrite (increment_clarification_is _ _ _ Hn).
    unfold Store.bind at 1. rewrite hget_int_after_hset.
    destruct (n + 1 >=? max_clarifications self).
    + unfold Store.bind. rewrite update_state_is. cbn [Store.ret].
      eexists _, _. split; [reflexivity|]. split; [reflexivity|]. split.
      * rewrite !hget_hset_ne by discriminate. apply hget_hset_eq.
      * apply (state_after_update utcnow sid ERROR).
    + unfold Store.bind. rewrite update_state_is.
      cbn [Store.ret]. rewrite Hmsg.
      eexists _, _. split; [reflexivity|]. split; [reflexivity|]. split.
      * rewrite !hget_hset_ne by discriminate. apply hget_hset_eq.
      * apply (state_after_update utcnow sid CLARIFYING).
Qed.

Lemma non_decreasing_refl sid r : Counters.non_decreasing sid r r.
Proof. intros f n _ H. exists n. split; [exact H | lia]. Qed.

Lemma non_decreasing_trans sid r1 r2 r3 :
  Counters.non_decreasing sid r1 r2 -> Counters.non_decreasing sid r2 r3 ->
  Counters.non_decreasing sid r1 r3.
Proof.
  intros H12 H23 f n Hf Hn.
  destruct (H12 f n Hf Hn) as (n2 & Hn2 & Hle2).
  destruct (H23 f n2 Hf Hn2) as (n3 & Hn3 & Hle3).
  exists n3. split; [exact Hn3 | lia].
Qed.

Lemma monotone_ret {A} sid (a : A) : Counters.monotone sid (Store.ret a).
Proof. intros r a' r' [= <- <-]. apply non_decreasing_refl. Qed.

Lemma monotone_bind {A B} sid (m : Store.M A) (k : A -> Store.M B) :
  Counters.monotone sid m -> (forall a, Counters.monotone sid (k a)) ->
  Counters.monotone sid (Store.bind m k).
Proof.
  intros Hm Hk r b r' H. unfold Store.bind in H.
  destruct (m r) as [[a r1]|] eqn:Hmr; [|discriminate].
  eapply non_decreasing_trans; [eapply Hm | eapply Hk]; eauto.
Qed.

Lemma monotone_hget sid name field :
  Counters.monotone sid (Store.hget name field).
Proof. intros r a r' [= <- <-]. apply non_decreasing_refl. Qed.

Lemma monotone_lift {A} sid (o : option A) : Counters.monotone sid (Store.lift o).
Proof.
  intros r a r' H. unfold Store.lift in H. destruct o; [|discriminate].
  injection H as <- <-. apply non_decreasing_refl.
Qed.

Lemma monotone_hget_int sid sid' field :
  Counters.monotone sid (hget_int sid' field).
Proof.
  unfold hget_int. apply monotone_bind; [apply monotone_hget|].
  intros v. apply monotone_lift.
Qed.

Lemma monotone_get_state sid sid' : Counters.monotone sid (get_state sid').
Proof.
  unfold get_state. apply monotone_bind; [apply monotone_hget|].
  intros v. destruct (Py.truthy v); apply monotone_ret.
Qed.

(** Writing a field that is not a counter. *)
Lemma monotone_hset_other sid field v :
  ~ In field Counters.names ->
  Counters.monotone sid (Store.hset (key sid) field v).
Proof.
  intros Hnot r a r' [= <- <-] f n Hf Hn.
  exists n. split; [|lia]. unfold Counters.read in *.
  rewrite hget_hset_ne; [exact Hn|]. intros ->. contradiction.
Qed.

Lemma monotone_update_state sid st :
  Counters.monotone sid (update_state utcnow sid st).
Proof.
  unfold update_state.
  apply monotone_bind; [|intros _];
    apply monotone_hset_other; simpl; intuition discriminate.
Qed.

(** Adding one to a counter. *)
Lemma monotone_increment sid field :
  Counters.monotone sid
    (Store.bind (hget_int sid field)
       (fun current =>
          Store.hset (key sid) field (Py.str (current + 1)))).
Proof.
  intros r a r' H.
  unfold hget_int, Store.bind, Store.hget, Store.lift, Store.hset in H.
  destruct (Py.int _) as [cur|] eqn:Hcur; [|discriminate].
  injection H as <- <-. intros f n Hf Hn.
  destruct (decide (f = field)) as [->|Hne].
  - exists (cur + 1). unfold Counters.read in *.
    rewrite hget_hset_eq, or_else_str, int_str.
    split; [reflexivity|]. rewrite Hcur in Hn. injection Hn as <-. lia.
  - exists n. split; [|lia]. unfold Counters.read in *.
    rewrite hget_hset_ne by congruence. exact Hn.
Qed.

Ltac mono :=
  repeat first
    [ apply monotone_ret
    | apply monotone_update_state
    | apply monotone_increment
    | apply monotone_hget_int
    | apply monotone_get_state
    | apply monotone_hset_other; simpl; intuition discriminate
    | apply monotone_bind; [|intros ?]
    | match goal with
      | |- Counters.monotone _ (if ?b then _ else _) => destruct b
      | |- Counters.monotone _ (match ?x with _ => _ end) => destruct x
      end ].

(** X13: as long as the state field names a state, no call to
    [process_state_transition] lowers [turn_count], [clarification_count] or
    [silence_prompts]. *)
Theorem counters_never_decrease sid user_text r st res r' :
  Redis.hget r (conversation_key sid) "state" = Some (value st) ->
  process_state_transition utcnow quality_completion self sid user_text r
  = Some (res, r') ->
  Counters.non_decreasing sid r r'.
Proof.
  intros Hst Hstep. unfold process_state_transition in Hstep.
  unfold Store.bind at 1 in Hstep. rewrite (get_state_is sid r st Hst) in Hstep.
  unfold Store.bind at 1 in Hstep. cbn [Store.ret] in Hstep.
  match type of Hstep with
  | ?m r = Some _ =>
    assert (Hm : Counters.monotone sid m); [|exact (Hm r res r' Hstep)]
  end.
  unfold increment_turn, increment_silence_prompt, increment_clarification,
    get_silence_prompt, get_clarification_message.
  destruct st; mono.
Qed.

End ConversationMore.

Section ConversationMoreRuns.
Import ConversationEngine Scenario.

Local Open Scope string_scope.

Local Abbreviation step := (process_state_transition clock no_model new).

(** Session [s1] after the hand-over message: the next call ends it. *)
Lemma terminal_states_end_the_conversation_witness :
  exists r',
    step "s1" None error_store = Some (END, "", true, r') /\
    Redis.hget r' "conversation:s1" "state" = Some "END" /\
    (ERROR = END -> r' = error_store).
Proof.
  apply (terminal_states_end_the_conversation clock no_model new "s1" None
           error_store ERROR).
  - vm_compute. reflexivity.
  - left. reflexivity.
Defined.

(** A session the store knows nothing of. *)
Lemma unknown_state_restarts_the_conversation_witness :
  exists r',
    step "s1" None ∅ = Some (GREETING, get_greeting, false, r') /\
    Redis.hget r' "conversation:s1" "state" = Some "GREETING" /\
    Redis.hget r' "conversation:s1" "turn_count" = Some "0".
Proof.
  destruct (unknown_state_restarts_the_conversation clock no_model new "s1"
              None ∅) as (r' & Hstep & Hstate & Hturn & _).
  - reflexivity.
  - exists r'. split; [exact Hstep|]. split; [exact Hstate|exact Hturn].
Defined.

(** The model answers [ Unclear] to a sentence. *)
Lemma unclear_reply_is_read_as_clear_witness :
  analyze_input_quality unclear_model "asdf qwer" "s1" = CLEAR.
Proof.
  apply (unclear_reply_is_read_as_clear unclear_model "asdf qwer" "s1"
           " Unclear").
  - vm_compute. discriminate.
  - reflexivity.
  - vm_compute. reflexivity.
Defined.

(** Session [s1] hears a sentence; the model is down. *)
Lemma clear_utterance_takes_three_calls_witness :
  exists r1 r2 r3,
    step "s1" (Some "hello") listening_store
    = Some (PROCESSING, "", false, r1) /\
    step "s1" (Some "hello there") r1 = Some (RESPONDING, "", false, r2) /\
    step "s1" None r2 = Some (LISTENING, "", false, r3) /\
    Redis.hget r3 "conversation:s1" "state" = Some "LISTENING" /\
    Redis.hget r3 "conversation:s1" "turn_count" = Some "1" /\
    Redis.hget r3 "conversation:s1" "last_user_input" = Some "hello".
Proof.
  apply (clear_utterance_takes_three_calls clock no_model new "s1" "hello"
           (Some "hello there") None listening_store 0).
  - vm_compute. reflexivity.
  - vm_compute. reflexivity.
  - vm_compute. reflexivity.
  - vm_compute. reflexivity.
  - vm_compute. reflexivity.
Defined.

(** Session [s1] receives a transcription of confidence 0.1. *)
Lemma low_confidence_clarifies_or_escalates_witness :
  exists md r',
    process_asr_result clock no_model new "s1" mumble listening_store
    = Some (CLARIFYING,
            "I didn't catch that clearly. Could you please repeat?",
            false, md, r') /\
    meta_action md = "REJECT" /\
    Redis.hget r' "conversation:s1" "clarification_count" = Some "1" /\
    Redis.hget r' "conversation:s1" "state" = Some "CLARIFYING".
Proof.
  apply (low_confidence_clarifies_or_escalates clock no_model new "s1"
           mumble listening_store 0).
  - reflexivity.
  - vm_compute. reflexivity.
  - vm_compute. reflexivity.
Defined.

(** The twentieth turn of session [s1]. *)
Lemma counters_never_decrease_witness :
  exists r',
    snd <$> step "s1" None responding_store = Some r' /\
    Counters.non_decreasing "s1" responding_store r'.
Proof.
  eexists. split; [vm_compute; reflexivity|].
  apply (counters_never_decrease clock no_model new "s1" None
           responding_store RESPONDING
           (END, "Thank you for the conversation. Have a great day!", true)).
  - vm_compute. reflexivity.
  - vm_compute. reflexivity.
Defined.

End ConversationMoreRuns.

(** * Properties of the session manager *)

Section SessionProperties.
Import SessionManager.

Local Open Scope string_scope.
Local Open Scope Z_scope.

Variable isoformat : Q -> string.
Variable fromisoformat : string -> option Q.
Variable json_dumps : Message -> string.
Variable json_loads : string -> option Message.
Variable self : SessionManager.

Local Abbreviation add := (add_to_history isoformat json_dumps).
Local Abbreviation history := (get_history json_loads).

(** A range starting at the head is a prefix. *)
Lemma range_from_head (l : list string) stop :
  0 <= stop -> Kv.range l 0 stop = take (Z.to_nat (stop + 1)) l.
Proof.
  intros Hstop. unfold Kv.range, len.
  destruct (0 <? 0) eqn:H0; [discriminate|].
  destruct (stop <? 0) eqn:Hs; [apply Z.ltb_lt in Hs; lia|].
  destruct (0 >? stop) eqn:Hgt; [apply Z.gtb_lt in Hgt; lia|].
  destruct (0 >=? Z.of_nat (length l)) eqn:Hn; simpl.
  - rewrite Z.geb_leb in Hn. apply Z.leb_le in Hn.
    destruct l; [now rewrite take_nil | simpl in Hn; lia].
  - rewrite Z.geb_leb in Hn. apply Z.leb_gt in Hn. rewrite drop_0.
    destruct (Z.le_gt_cases stop (Z.of_nat (length l) - 1)) as [Hle|Hgt'].
    + now rewrite Z.min_l, Z.sub_0_r by lia.
    + rewrite Z.min_r, Z.sub_0_r by lia.
      rewrite !take_ge by lia. reflexivity.
Qed.

(** The whole list is the range from 0 to -1. *)
Lemma range_all (l : list string) : Kv.range l 0 (-1) = l.
Proof.
  unfold Kv.range, len. cbn [Z.ltb Z.compare].
  destruct l as [|x l]; [reflexivity|].
  set (n := Z.of_nat (length (x :: l))).
  assert (Hn : 1 <= n) by (subst n; simpl; lia).
  destruct (0 >? n + -1) eqn:Hgt; [apply Z.gtb_lt in Hgt; lia|].
  destruct (0 >=? n) eqn:Hge;
    [rewrite Z.geb_leb in Hge; apply Z.leb_le in Hge; lia|].
  cbn [orb]. rewrite drop_0, Z.min_r by lia.
  apply take_ge. subst n. lia.
Qed.

(** The list stored under the history key, if any. *)
Lemma add_to_history_stores now sid role_ content_ db l :
  (Kv.data db !! history_key sid = None /\ l = []) \/
  Kv.data db !! history_key sid = Some (Kv.Items l) ->
  exists db',
    add now sid role_ content_ db = (Some tt, db') /\
    Kv.data db' !! history_key sid
    = Some (Kv.Items
              (take 50
                 (json_dumps (mkMessage role_ content_ (isoformat now))
                  :: l))).
Proof.
  intros Hl. unfold add_to_history, Kv.bind, Kv.lpush.
  set (m := json_dumps _).
  assert (Htrim : forall db1,
    Kv.data db1 !! history_key sid = Some (Kv.Items (m :: l)) ->
    exists db',
      Kv.ltrim (history_key sid) 0 49 db1 = (Some tt, db') /\
      Kv.data db' !! history_key sid = Some (Kv.Items (take 50 (m :: l)))).
  { intros db1 H1. unfold Kv.ltrim. rewrite H1.
    rewrite range_from_head by lia.
    change (Z.to_nat (49 + 1)) with 50%nat.
    cbn [take]. eexists. split; [reflexivity|].
    cbn [Kv.put Kv.data]. apply lookup_insert_eq. }
  destruct Hl as [[Hnone ->] | Hsome].
  - rewrite Hnone. apply Htrim. cbn [Kv.put Kv.data]. apply lookup_insert_eq.
  - rewrite Hsome. apply Htrim. cbn [Kv.put Kv.data]. apply lookup_insert_eq.
Qed.

(** X14: the history of a session never holds more than 50 entries once
    [add_to_history] has returned, and the entry just added comes first. *)
Theorem history_is_capped_at_fifty now sid role_ content_ db db' :
  add_to_history isoformat json_dumps now sid role_ content_ db
  = (Some tt, db') ->
  exists l,
    Kv.data db' !! history_key sid = Some (Kv.Items l) /\
    (length l <= 50)%nat /\
    head l = Some (json_dumps (mkMessage role_ content_ (isoformat now))).
Proof.
  intros Hadd.
  assert (Hl : exists l,
    (Kv.data db !! history_key sid = None /\ l = []) \/
    Kv.data db !! history_key sid = Some (Kv.Items l)).
  { unfold add_to_history, Kv.bind, Kv.lpush in Hadd.
    destruct (Kv.data db !! history_key sid) as [[h|s|l]|];
      try discriminate; eauto. }
  destruct Hl as [l Hl].
  destruct (add_to_history_stores now sid role_ content_ db l Hl)
    as (db1 & Hadd1 & Hstored).
  rewrite Hadd1 in Hadd. injection Hadd as <-.
  eexists. split; [exact Hstored|]. split.
  - rewrite length_take. lia.
  - reflexivity.
Qed.

(** The message [add_to_history] builds for an entry [(now, role, content)]. *)
Local Abbreviation message_of :=
  (fun entry : Q * string * string =>
     mkMessage (snd (fst entry)) (snd entry) (isoformat (fst (fst entry)))).

Lemma take_app_take {A} (l k : list A) n :
  take n (l ++ take n k) = take n (l ++ k).
Proof.
  rewrite !take_app, take_take. f_equal. f_equal. lia.
Qed.

Lemma add_all_stores sid entries : forall db l,
  (Kv.data db !! history_key sid = None /\ l = []) \/
  Kv.data db !! history_key sid = Some (Kv.Items l) ->
  (length l <= 50)%nat ->
  exists db' l',
    add_all isoformat json_dumps sid entries db = (Some tt, db') /\
    ((Kv.data db' !! history_key sid = None /\ l' = []) \/
     Kv.data db' !! history_key sid = Some (Kv.Items l')) /\
    l' = take 50 (rev (map json_dumps (map message_of entries)) ++ l).
Proof.
  induction entries as [|[[t ro] co] entries IH]; intros db l Hl Hlen.
  - exists db, l. split; [reflexivity|]. split; [exact Hl|].
    simpl. now rewrite take_ge.
  - destruct (add_to_history_stores t sid ro co db l Hl)
      as (db1 & Hadd & Hstored).
    destruct (IH db1 _ (or_intror Hstored)) as (db' & l' & Hall & Hl' & ->).
    { rewrite length_take. lia. }
    exists db', (take 50
                   (rev (map json_dumps (map message_of entries))
                    ++ take 50
                         (json_dumps (mkMessage ro co (isoformat t)) :: l))).
    split.
    { cbn [add_all foldr]. unfold Kv.bind at 1. cbn [fst snd].
      rewrite Hadd. exact Hall. }
    split; [exact Hl'|].
    rewrite take_app_take. cbn [map rev fst snd].
    now rewrite <- app_assoc.
Qed.

Lemma omap_loads_dumps (ms : list Message) :
  Forall (fun m => json_loads (json_dumps m) = Some m) ms ->
  omap json_loads (map json_dumps ms) = ms.
Proof.
  induction 1 as [|m ms Hm _ IH]; [reflexivity|].
  cbn. rewrite Hm. cbn. f_equal. exact IH.
Qed.

(** X15: adding messages to a session without history and then reading it
    back with a positive [limit] gives the latest [min limit 50] messages,
    oldest first, provided each of them survives the JSON round trip. *)
Theorem get_history_returns_latest_in_order sid entries limit db :
  Kv.data db !! history_key sid = None ->
  1 <= limit ->
  Forall (fun e => json_loads (json_dumps (message_of e))
                   = Some (message_of e)) entries ->
  fst (get_history json_loads sid limit
         (snd (add_all isoformat json_dumps sid entries db)))
  = Some (drop (length entries - Z.to_nat (Z.min limit 50))
            (map message_of entries)).
Proof.
  intros Hnone Hlimit Hrt.
  destruct (add_all_stores sid entries db [] (or_introl (conj Hnone eq_refl)))
    as (db' & l' & Hall & Hl' & Hstored); [simpl; lia|].
  rewrite Hall. cbn [snd]. rewrite app_nil_r in Hstored.
  unfold get_history, Kv.bind, Kv.lrange.
  assert (Hrange :
    Kv.range l' 0 (limit - 1) = take (Z.to_nat limit) l').
  { rewrite range_from_head by lia. f_equal. lia. }
  assert (Hread :
    omap json_loads (rev (take (Z.to_nat limit) l'))
    = drop (length entries - Z.to_nat (Z.min limit 50))
        (map message_of entries)).
  { subst l'. rewrite take_take.
    replace (Z.to_nat limit `min` 50)%nat with (Z.to_nat (Z.min limit 50))
      by lia.
    rewrite firstn_rev, rev_involutive, !length_map.
    rewrite skipn_map. apply omap_loads_dumps.
    apply Forall_drop. apply List.Forall_map. exact Hrt. }
  destruct Hl' as [[Hk ->] | Hk]; rewrite Hk; cbn [fst Kv.ret].
  - rewrite <- Hread. now rewrite take_nil.
  - now rewrite Hrange, Hread.
Qed.

(** X16: a [limit] of zero does not mean "no messages": [get_history] then
    asks for the range 0..-1, which is the whole list, and returns every
    stored message that decodes, oldest first. *)
Theorem get_history_limit_zero_returns_everything sid db l :
  Kv.data db !! history_key sid = Some (Kv.Items l) ->
  fst (get_history json_loads sid 0 db) = Some (omap json_loads (rev l)).
Proof.
  intros Hk. unfold get_history, Kv.bind, Kv.lrange. rewrite Hk.
  change (0 - 1) with (-1). now rewrite range_all.
Qed.

Local Abbreviation touch := (update_activity isoformat).
Local Abbreviation idle_at := (check_idle fromisoformat self).
Local Abbreviation timed_out_at := (check_timeout fromisoformat self).

Lemma session_key_not_active sid : session_key sid <> "sessions:active".
Proof. unfold session_key. cbn. discriminate. Qed.

Lemma history_key_not_active sid : history_key sid <> "sessions:active".
Proof. unfold history_key. cbn. discriminate. Qed.

Lemma append_length (a b : string) :
  String.length (a +:+ b) = (String.length a + String.length b)%nat.
Proof. induction a as [|c a IH]; [reflexivity|]. simpl. now rewrite IH. Qed.

Lemma history_key_not_session_key sid : history_key sid <> session_key sid.
Proof.
  unfold history_key, session_key. intros H.
  apply (f_equal String.length) in H.
  rewrite !append_length in H. cbn in H. lia.
Qed.

Lemma of_value_value st : of_value (value st) = Some st.
Proof. now destruct st. Qed.

Lemma get_session_state_of_hash sid db h st :
  Kv.data db !! session_key sid = Some (Kv.Hash h) ->
  h !! "state" = Some (value st) ->
  get_session_state sid db = (Some (Some st), db).
Proof.
  intros Hk Hst. unfold get_session_state, Kv.bind, Kv.hget.
  rewrite Hk, Hst. now destruct st.
Qed.

Lemma put_put name v w db : Kv.put name w (Kv.put name v db) = Kv.put name w db.
Proof. unfold Kv.put. cbn. now rewrite insert_insert_eq. Qed.

(** What [update_activity] writes on a row that names a state. *)
Lemma update_activity_on_row now sid db h st :
  Kv.data db !! session_key sid = Some (Kv.Hash h) ->
  h !! "state" = Some (value st) ->
  update_activity isoformat now sid db =
  (Some true,
   Kv.put (session_key sid)
     (Kv.Hash
        (<["state" :=
             value (if bool_decide (st = NEW \/ st = IDLE)
                    then ACTIVE else st)]>
           (<["last_activity" := isoformat now]> h)))
     db).
Proof.
  intros Hk Hst. unfold update_activity.
  unfold Kv.bind at 1. rewrite (get_session_state_of_hash sid db h st Hk Hst).
  unfold Kv.bind at 1. unfold Kv.bind at 1. unfold Kv.hset at 1. rewrite Hk.
  destruct (bool_decide (st = NEW \/ st = IDLE)).
  - unfold update_state, Kv.bind, Kv.hset. cbn [Kv.put Kv.data].
    rewrite lookup_insert_eq. cbn [Kv.ret]. rewrite decide_False by discriminate.
    cbn [Kv.ret]. now rewrite put_put.
  - cbn [Kv.ret]. f_equal. f_equal. f_equal. symmetry. apply insert_id.
    now rewrite lookup_insert_ne by discriminate.
Qed.

(** X17: [update_activity] on a session whose row names a state answers
    [True], stamps [last_activity] with the time of the call and turns NEW
    and IDLE into ACTIVE; ACTIVE and CLOSED are kept, so activity never
    reopens a closed session.  No other key is written. *)
Theorem update_activity_activates now sid db h st :
  Kv.data db !! session_key sid = Some (Kv.Hash h) ->
  h !! "state" = Some (value st) ->
  update_activity isoformat now sid db =
  (Some true,
   Kv.put (session_key sid)
     (Kv.Hash
        (<["state" :=
             value (if bool_decide (st = NEW \/ st = IDLE)
                    then ACTIVE else st)]>
           (<["last_activity" := isoformat now]> h)))
     db).
Proof. apply update_activity_on_row. Qed.

(** X18: [update_activity] on a session that has no row, or whose row has
    no state or an unknown one, answers [False] and writes nothing. *)
Theorem update_activity_ignores_unknown_sessions now sid db :
  Kv.data db !! session_key sid = None \/
  (exists h, Kv.data db !! session_key sid = Some (Kv.Hash h) /\
             h !! "state" ≫= of_value = None) ->
  update_activity isoformat now sid db = (Some false, db).
Proof.
  intros H. unfold update_activity, get_session_state, Kv.hget, Kv.bind.
  destruct H as [-> | (h & -> & Hst)]; [reflexivity|].
  destruct (h !! "state") as [[|c s]|]; cbn in *; try reflexivity.
  now rewrite Hst.
Qed.

(** What [close_session] leaves behind. *)
Lemma close_session_on_row sid db h s :
  (Kv.data db !! session_key sid = None /\ h = ∅) \/
  Kv.data db !! session_key sid = Some (Kv.Hash h) ->
  (Kv.data db !! "sessions:active" = None /\ s = ∅) \/
  Kv.data db !! "sessions:active" = Some (Kv.Members s) ->
  exists db',
    close_session sid db = (Some tt, db') /\
    Kv.data db' !! session_key sid
    = Some (Kv.Hash (<["state" := "CLOSED"]> h)) /\
    fst (Kv.smembers "sessions:active" db') = Some (s ∖ {[sid]}) /\
    Kv.ttl db' !! session_key sid = Some 86400.
Proof.
  intros Hrow Hact.
  pose proof (session_key_not_active sid) as Hne.
  pose proof (history_key_not_session_key sid) as Hne2.
  pose proof (history_key_not_active sid) as Hne3.
  unfold close_session, update_state.
  unfold Kv.bind at 1. unfold Kv.bind at 1.
  assert (H1 : Kv.hset (session_key sid) "state" (value CLOSED) db
               = (Some tt,
                  Kv.put (session_key sid)
                    (Kv.Hash (<["state" := "CLOSED"]> h)) db)).
  { unfold Kv.hset. destruct Hrow as [[-> ->] | ->]; reflexivity. }
  rewrite H1. rewrite decide_True by reflexivity.
  unfold Kv.srem, Kv.bind, Kv.expire, Kv.smembers, Kv.put, Kv.del.
  cbn [Kv.data Kv.ttl].
  rewrite lookup_insert_ne by done.
  destruct Hact as [[Ha ->] | Ha]; rewrite Ha.
  - cbn [Kv.data Kv.ttl]. rewrite lookup_insert_eq.
    cbn [Z.leb Z.compare Kv.data Kv.ttl].
    rewrite lookup_insert_ne by done.
    destruct (Kv.data db !! history_key sid) eqn:Hh;
      (eexists; split; [reflexivity|]); cbn [Kv.data Kv.ttl fst];
      repeat split; simplify_map_eq; try done; f_equal; set_solver.
  - destruct (decide (s ∖ {[sid]} = ∅)) as [He|He];
      cbn [Kv.data Kv.ttl].
    + rewrite lookup_delete_ne, lookup_insert_eq by done.
      cbn [Z.leb Z.compare Kv.data Kv.ttl].
      rewrite lookup_delete_ne, lookup_insert_ne by done.
      destruct (Kv.data db !! history_key sid) eqn:Hh;
        (eexists; split; [reflexivity|]); cbn [Kv.data Kv.ttl fst];
        repeat split; simplify_map_eq; try done; f_equal; set_solver.
    + rewrite lookup_insert_ne, lookup_insert_eq by done.
      cbn [Z.leb Z.compare Kv.data Kv.ttl].
      rewrite !lookup_insert_ne by done.
      destruct (Kv.data db !! history_key sid) eqn:Hh;
        (eexists; split; [reflexivity|]); cbn [Kv.data Kv.ttl fst];
        repeat split; simplify_map_eq; try done; f_equal; set_solver.
Qed.

(** X19: [close_session] marks the row CLOSED, takes the session out of the
    active set and gives the row a day to live.  When the session has no
    row, one is created that holds nothing but the state. *)
Theorem close_session_closes sid db h s :
  (Kv.data db !! session_key sid = None /\ h = ∅) \/
  Kv.data db !! session_key sid = Some (Kv.Hash h) ->
  (Kv.data db !! "sessions:active" = None /\ s = ∅) \/
  Kv.data db !! "sessions:active" = Some (Kv.Members s) ->
  exists db',
    close_session sid db = (Some tt, db') /\
    Kv.data db' !! session_key sid
    = Some (Kv.Hash (<["state" := "CLOSED"]> h)) /\
    fst (Kv.smembers "sessions:active" db') = Some (s ∖ {[sid]}) /\
    Kv.ttl db' !! session_key sid = Some 86400.
Proof. apply close_session_on_row. Qed.

Lemma get_session_of_hash sid db h :
  Kv.data db !! session_key sid = Some (Kv.Hash h) ->
  get_session sid db = (Some (if decide (h = ∅) then None else Some h), db).
Proof.
  intros Hk. unfold get_session, Kv.bind, Kv.hgetall. now rewrite Hk.
Qed.

(** X20: after [update_activity] at instant [t], [check_idle] at instant
    [t'] answers whether [t' - t] has reached [idle_timeout] seconds,
    provided [t] survives the ISO round trip. *)
Theorem idle_after_idle_timeout t t' sid db h st :
  Kv.data db !! session_key sid = Some (Kv.Hash h) ->
  h !! "state" = Some (value st) ->
  fromisoformat (isoformat t) = Some t ->
  fst (check_idle fromisoformat self t' sid
         (snd (update_activity isoformat t sid db)))
  = Some (Qgeb (t' - t) (inject_Z (idle_timeout self))).
Proof.
  intros Hk Hst Hrt.
  rewrite (update_activity_on_row t sid db h st Hk Hst). cbn [snd].
  unfold check_idle, Kv.bind.
  erewrite get_session_of_hash
    by (unfold Kv.put; cbn [Kv.data]; apply lookup_insert_eq).
  rewrite decide_False.
  - cbn [Kv.ret fst]. unfold elapsed_at_least.
    rewrite lookup_insert_ne by discriminate.
    now rewrite lookup_insert_eq, Hrt.
  - intros Hempty. apply (f_equal (fun m => m !! "state")) in Hempty.
    rewrite lookup_insert_eq, lookup_empty in Hempty. discriminate.
Qed.

(** X21: a session just created is NEW, is a member of the active set and
    carries the two timestamps of its creation; its first activity makes it
    ACTIVE.  (The row survives creation only because the time to live,
    [max_session_duration + 60], is positive.) *)
Theorem first_activity_activates_new_session sid t0 t1 user_id db s :
  Kv.data db !! session_key sid = None ->
  (Kv.data db !! "sessions:active" = None /\ s = ∅) \/
  Kv.data db !! "sessions:active" = Some (Kv.Members s) ->
  0 < max_session_duration self + 60 ->
  exists db1 db2 h,
    create_session isoformat self sid t0 user_id db = (Some sid, db1) /\
    fst (get_session_state sid db1) = Some (Some NEW) /\
    fst (Kv.smembers "sessions:active" db1) = Some ({[sid]} ∪ s) /\
    Kv.ttl db1 !! session_key sid = Some (max_session_duration self + 60) /\
    update_activity isoformat t1 sid db1 = (Some true, db2) /\
    Kv.data db2 !! session_key sid = Some (Kv.Hash h) /\
    h !! "state" = Some "ACTIVE" /\
    h !! "created_at" = Some (isoformat t0) /\
    h !! "last_activity" = Some (isoformat t1) /\
    fst (Kv.smembers "sessions:active" db2) = Some ({[sid]} ∪ s).
Proof.
  intros Hrow Hact Httl.
  pose proof (session_key_not_active sid) as Hne.
  assert (Hle : (max_session_duration self + 60 <=? 0) = false)
    by (apply Z.leb_gt; lia).
  set (h0 := foldl (fun (h : gmap string string) kv => <[fst kv := snd kv]> h) ∅
    [("session_id", sid); ("state", value NEW);
     ("created_at", isoformat t0); ("last_activity", isoformat t0);
     ("idle_timeout", Py.str (idle_timeout self));
     ("max_duration", Py.str (max_session_duration self));
     ("user_id", Py.or_else user_id ""); ("metadata", "{}")]).
  assert (Hcreate : exists db1,
    create_session isoformat self sid t0 user_id db = (Some sid, db1) /\
    Kv.data db1 !! session_key sid = Some (Kv.Hash h0) /\
    fst (Kv.smembers "sessions:active" db1) = Some ({[sid]} ∪ s) /\
    Kv.ttl db1 !! session_key sid = Some (max_session_duration self + 60)).
  { unfold create_session, Kv.bind, Kv.hset_mapping, Kv.sadd, Kv.expire,
      Kv.smembers, Kv.put.
    rewrite Hrow. cbn [Kv.data Kv.ttl].
    rewrite lookup_insert_ne by done.
    destruct Hact as [[Ha ->] | Ha]; rewrite Ha; cbn [Kv.data Kv.ttl];
      rewrite lookup_insert_ne, lookup_insert_eq, Hle by done;
      (eexists; split; [reflexivity|]); cbn [Kv.data Kv.ttl fst];
      repeat split; rewrite ?lookup_insert_eq;
      rewrite ?lookup_insert_ne by done; rewrite ?lookup_insert_eq;
      try reflexivity; cbn [fst]; f_equal; set_solver. }
  destruct Hcreate as (db1 & Hc & Hk1 & Hm1 & Ht1).
  assert (Hst0 : h0 !! "state" = Some (value NEW)) by reflexivity.
  exists db1. eexists. eexists.
  split; [exact Hc|].
  split; [now rewrite (get_session_state_of_hash sid db1 h0 NEW Hk1 Hst0)|].
  split; [exact Hm1|]. split; [exact Ht1|].
  split; [apply (update_activity_on_row t1 sid db1 h0 NEW Hk1 Hst0)|].
  unfold Kv.put, Kv.smembers in *. cbn [Kv.data] in *.
  split; [apply lookup_insert_eq|].
  split; [reflexivity|]. split; [reflexivity|]. split; [reflexivity|].
  rewrite lookup_insert_ne by done.
  destruct (Kv.data db1 !! "sessions:active") as [[?|?|?]|]; exact Hm1.
Qed.

Lemma get_session_reads sid db :
  snd (get_session sid db) = db.
Proof.
  unfold get_session, Kv.bind, Kv.hgetall.
  now destruct (Kv.data db !! session_key sid) as [[]|].
Qed.

Lemma check_idle_reads now sid db : snd (idle_at now sid db) = db.
Proof.
  unfold check_idle, Kv.bind.
  pose proof (get_session_reads sid db) as H.
  destruct (get_session sid db) as [[[m|]|] db1]; cbn in *; congruence.
Qed.

Lemma check_timeout_reads now sid db : snd (timed_out_at now sid db) = db.
Proof.
  unfold check_timeout, Kv.bind.
  pose proof (get_session_reads sid db) as H.
  destruct (get_session sid db) as [[[m|]|] db1]; cbn in *; congruence.
Qed.

(** X22: the housekeeping pass leaves alone a session that is neither idle
    nor timed out: nothing is written. *)
Theorem cleanup_leaves_live_sessions_alone now_idle now_timeout sid db :
  fst (check_idle fromisoformat self now_idle sid db) = Some false ->
  fst (check_timeout fromisoformat self now_timeout sid db) = Some false ->
  cleanup_session fromisoformat self now_idle now_timeout sid db
  = (Some tt, db).
Proof.
  intros Hidle Htimeout. unfold cleanup_session.
  unfold Kv.bind at 1. unfold Kv.bind at 1.
  pose proof (check_idle_reads now_idle sid db) as Hr1.
  destruct (idle_at now_idle sid db) as [o1 db1]. cbn in Hidle, Hr1. subst.
  cbn [Kv.ret]. unfold Kv.bind.
  pose proof (check_timeout_reads now_timeout sid db) as Hr2.
  destruct (timed_out_at now_timeout sid db) as [o2 db2].
  cbn in Htimeout, Hr2. subst. reflexivity.
Qed.


End SessionProperties.

(** ** The session manager on a concrete database *)

Section SessionRuns.
Import SessionManager Scenario.

Local Open Scope string_scope.

(** The first message of a session. *)
Lemma history_is_capped_at_fifty_witness :
  exists l,
    Kv.data (snd (add_to_history seconds dumps 100 "s1" "user" "hi"
                    Kv.empty))
      !! history_key "s1" = Some (Kv.Items l) /\
    (length l <= 50)%nat /\
    head l = Some (dumps (mkMessage "user" "hi" (seconds 100))).
Proof.
  apply (history_is_capped_at_fifty seconds dumps 100 "s1" "user" "hi"
           Kv.empty).
  vm_compute. reflexivity.
Defined.

(** Three messages, the last two asked for. *)
Lemma get_history_returns_latest_in_order_witness :
  fst (get_history loads "s1" 2
         (snd (add_all seconds dumps "s1" chat Kv.empty)))
  = Some [mkMessage "assistant" "hello" "101"; mkMessage "user" "bye" "102"].
Proof.
  apply (get_history_returns_latest_in_order seconds dumps loads "s1" chat 2
           Kv.empty).
  - reflexivity.
  - vm_compute. discriminate.
  - repeat constructor.
Defined.

(** The same three messages, asked for with a limit of zero. *)
Lemma get_history_limit_zero_returns_everything_witness :
  fst (get_history loads "s1" 0
         (snd (add_all seconds dumps "s1" chat Kv.empty)))
  = Some (omap loads
            (rev ["user|bye|102"; "assistant|hello|101"; "user|hi|100"])).
Proof.
  apply (get_history_limit_zero_returns_everything loads "s1"
           (snd (add_all seconds dumps "s1" chat Kv.empty))).
  vm_compute. reflexivity.
Defined.

(** Session [s1], still NEW, is heard from at second 130. *)
Lemma update_activity_activates_witness :
  update_activity seconds 130 "s1" session_db
  = (Some true,
     Kv.put "session:s1"
       (Kv.Hash (<["state" := "ACTIVE"]>
                   (<["last_activity" := "130"]> session_row)))
       session_db).
Proof.
  apply (update_activity_activates seconds 130 "s1" session_db session_row
           NEW).
  - vm_compute. reflexivity.
  - vm_compute. reflexivity.
Defined.

(** Session [s2] was never created. *)
Lemma update_activity_ignores_unknown_sessions_witness :
  update_activity seconds 130 "s2" session_db = (Some false, session_db).
Proof.
  apply (update_activity_ignores_unknown_sessions seconds 130 "s2"
           session_db).
  left. vm_compute. reflexivity.
Defined.

(** Session [s1], the only active one, is closed. *)
Lemma close_session_closes_witness :
  exists db',
    close_session "s1" session_db = (Some tt, db') /\
    Kv.data db' !! "session:s1"
    = Some (Kv.Hash (<["state" := "CLOSED"]> session_row)) /\
    fst (Kv.smembers "sessions:active" db') = Some ({["s1"]} ∖ {["s1"]}) /\
    Kv.ttl db' !! "session:s1" = Some 86400.
Proof.
  apply (close_session_closes "s1" session_db session_row {["s1"]}).
  - right. vm_compute. reflexivity.
  - right. vm_compute. reflexivity.
Defined.

(** Session [s1] is heard from at second 130 and looked at at second 200. *)
Lemma idle_after_idle_timeout_witness :
  fst (check_idle of_seconds new 200 "s1"
         (snd (update_activity seconds 130 "s1" session_db)))
  = Some (Qgeb (200 - 130) (inject_Z 30)).
Proof.
  apply (idle_after_idle_timeout seconds of_seconds new 130 200 "s1"
           session_db session_row NEW).
  - vm_compute. reflexivity.
  - vm_compute. reflexivity.
  - vm_compute. reflexivity.
Defined.

(** Session [s1] is created at second 100 and heard from at second 130. *)
Lemma first_activity_activates_new_session_witness :
  exists db1 db2 h,
    create_session seconds new "s1" 100 None Kv.empty = (Some "s1", db1) /\
    update_activity seconds 130 "s1" db1 = (Some true, db2) /\
    Kv.data db2 !! "session:s1" = Some (Kv.Hash h) /\
    h !! "state" = Some "ACTIVE".
Proof.
  destruct (first_activity_activates_new_session seconds of_seconds loads
              new "s1" 100 130 None Kv.empty ∅)
    as (db1 & db2 & h & Hc & _ & _ & _ & Hu & Hk & Hs & _).
  - reflexivity.
  - left. split; reflexivity.
  - vm_compute. reflexivity.
  - exists db1, db2, h. repeat split; assumption.
Defined.

(** Session [s1], ten seconds old. *)
Lemma cleanup_leaves_live_sessions_alone_witness :
  cleanup_session of_seconds new 110 111 "s1" session_db
  = (Some tt, session_db).
Proof.
  apply (cleanup_leaves_live_sessions_alone of_seconds new 110 111 "s1"
           session_db).
  - vm_compute. reflexivity.
  - vm_compute. reflexivity.
Defined.


End SessionRuns.

(** * Properties of the audio framing *)

Section FramingProperties.

Import Framing.
Local Open Scope Z_scope.

Context {Conn : Type}.
Variable transcribe : Conn -> bytes -> Conn * bool.
Variable handle : Conn -> bytes -> Conn * bool.

Lemma frame_loop_spec fuel : forall conn pcm_buffer,
  let '(frames, _, rest) := frame_loop handle fuel conn pcm_buffer in
  concat frames ++ rest = pcm_buffer /\
  Forall (fun frame => length frame = 640%nat) frames.
Proof.
  induction fuel as [|fuel IH]; intros conn buf; cbn [frame_loop].
  - now split.
  - unfold len, FRAME_SIZE.
    destruct (Z.of_nat (length buf) >=? 640) eqn:Hge; [|now split].
    rewrite Z.geb_leb in Hge. apply Z.leb_le in Hge.
    destruct (handle conn (take 640 buf)) as [conn' [|]].
    + split.
      * cbn [concat]. now rewrite app_nil_r, take_drop.
      * constructor; [|constructor]. rewrite length_take. lia.
    + specialize (IH conn' (drop 640 buf)).
      destruct (frame_loop handle fuel conn' (drop 640 buf))
        as [[frames conn''] rest].
      destruct IH as [Hcat Hall]. split.
      * cbn [concat]. now rewrite <- app_assoc, Hcat, take_drop.
      * constructor; [|exact Hall]. rewrite length_take. lia.
Qed.

(** X24: re-framing loses nothing and invents nothing, whatever the handling
    of the frames does: the frames taken, followed by what stays in the
    buffer, are the old buffer followed by the chunk, and every frame has
    exactly 640 bytes. *)
Theorem pcm_chunk_reframes conn pcm_buffer chunk :
  let '(frames, _, rest) := pcm_chunk handle conn pcm_buffer chunk in
  concat frames ++ rest = pcm_buffer ++ chunk /\
  Forall (fun frame => length frame = 640%nat) frames.
Proof. unfold pcm_chunk. apply frame_loop_spec. Qed.

Section NoBreak.

Hypothesis never_stops : forall conn frame, snd (handle conn frame) = false.





End NoBreak.


(** X26: the legacy path loses no chunk and flushes on every fiftieth: the
    batches written out, the chunks still buffered and the chunks not read
    are the chunks in order; there is one batch for every fifty chunks
    read; fewer than fifty stay buffered. *)
Theorem legacy_stream_batches_by_fifty chunks : forall conn audio_buffer,
  (length audio_buffer < 50)%nat ->
  let '(batches, _, kept, unread) :=
    legacy_stream transcribe conn audio_buffer chunks in
  concat batches ++ concat kept ++ concat unread
  = concat audio_buffer ++ concat chunks /\
  (length audio_buffer + length chunks
   = 50 * length batches + length kept + length unread)%nat /\
  (length kept < 50)%nat.
Proof.
  induction chunks as [|chunk chunks IH]; intros conn ab Hab.
  - cbn [legacy_stream concat length app]. rewrite !app_nil_r.
    split; [reflexivity|]. split; [lia|exact Hab].
  - cbn [legacy_stream]. unfold legacy_chunk, len.
    destruct (Z.of_nat (length (ab ++ [chunk])) >=? 50) eqn:Hge.
    + rewrite Z.geb_leb in Hge. apply Z.leb_le in Hge.
      rewrite length_app in Hge. cbn [length] in Hge.
      assert (Hlen : length ab = 49%nat) by lia.
      destruct (transcribe conn (concat (ab ++ [chunk]))) as [conn' [|]].
      * cbn [concat length app]. rewrite !app_nil_r, concat_app.
        cbn [concat]. rewrite app_nil_r, <- app_assoc.
        split; [reflexivity|]. split; lia.
      * specialize (IH conn' [] ltac:(simpl; lia)).
        destruct (legacy_stream transcribe conn' [] chunks)
          as [[[batches c] kept] unread].
        destruct IH as (Hcat & Hn & Hkept).
        cbn [concat length app] in *.
        split; [|split; [lia|exact Hkept]].
        rewrite <- app_assoc, Hcat, concat_app. cbn [concat].
        now rewrite app_nil_r, <- app_assoc.
    + rewrite Z.geb_leb in Hge. apply Z.leb_gt in Hge.
      rewrite length_app in Hge. cbn [length] in Hge.
      specialize (IH conn (ab ++ [chunk])).
      destruct (legacy_stream transcribe conn (ab ++ [chunk]) chunks)
        as [[[batches c] kept] unread].
      destruct IH as (Hcat & Hn & Hkept);
        [rewrite length_app; cbn [length]; lia|].
      rewrite length_app in Hn. cbn [length app] in *.
      split; [|split; [lia|exact Hkept]].
      rewrite Hcat, concat_app. cbn [concat].
      now rewrite app_nil_r, <- app_assoc.
Qed.

End FramingProperties.

Section FramingRuns.
Import Framing Scenario.


(** Fifty-one legacy chunks. *)
Lemma legacy_stream_batches_by_fifty_witness :
  let chunks := repeat Driver.short_chunk 51 in
  let '(batches, _, kept, unread) := legacy_stream count 0%nat [] chunks in
  concat batches ++ concat kept ++ concat unread = concat [] ++ concat chunks
  /\ (length (@nil bytes) + length chunks
      = 50 * length batches + length kept + length unread)%nat
  /\ (length kept < 50)%nat.
Proof.
  apply (legacy_stream_batches_by_fifty count
           (repeat Driver.short_chunk 51) 0%nat []).
  simpl. lia.
Defined.

End FramingRuns.
